(** * Theia front-end modules: a shallow embedding and its properties

    The development follows the TypeScript sources module by module:
    the quick-open registry and dispatcher (both revisions), the markers
    tree, the Node.js debug-adapter contribution, the preferences menu
    factory, the editor decorators and the breakpoints widget.

    JavaScript strings are sequences of code units; [startsWith], [substr]
    and [length] only look at positions in that sequence, so Rocq's
    [string] stands for them.  DAP line and column numbers are integers
    and are kept in [Z].  A promise that the code only chains with [then]
    is represented by the call it leads to. *)

From Stdlib Require Import ZArith Lia.
From stdpp Require Import base list strings gmap pretty.

(* ===================================================================== *)
(** * JavaScript built-ins used by the sources *)
(* ===================================================================== *)

Module Js.

(** [text.startsWith(p)]. *)
Fixpoint startsWith (text p : string) {struct p} : bool :=
  match p, text with
  | EmptyString, _ => true
  | String _ _, EmptyString => false
  | String c p', String d text' => Ascii.eqb c d && startsWith text' p'
  end.

(** [s.substr(start)] for a start index that is not negative: the code
    units from [start] to the end, nothing when [start] is past the end. *)
Fixpoint substr (s : string) (start : nat) {struct start} : string :=
  match start, s with
  | 0, _ => s
  | S _, EmptyString => EmptyString
  | S n, String _ s' => substr s' n
  end.

(** A [Map<string, V>]: iteration follows insertion order, so the map is
    kept as the list of its entries, oldest first. *)
Definition Map (V : Type) : Type := list (string * V).

Fixpoint has {V} (m : Map V) (k : string) : bool :=
  match m with
  | [] => false
  | (k', _) :: m' => String.eqb k' k || has m' k
  end.

(** [m.set(k, v)]: an entry that exists keeps its place. *)
Fixpoint set {V} (m : Map V) (k : string) (v : V) : Map V :=
  match m with
  | [] => [(k, v)]
  | (k', v') :: m' =>
      if String.eqb k' k then (k', v) :: m' else (k', v') :: set m' k v
  end.

Fixpoint delete {V} (m : Map V) (k : string) : Map V :=
  match m with
  | [] => []
  | (k', v') :: m' =>
      if String.eqb k' k then m' else (k', v') :: delete m' k
  end.

Definition keys {V} (m : Map V) : list string := m.*1.
Definition values {V} (m : Map V) : list V := m.*2.

(** Numbers, as the sources use them: integers (small enough for a double
    to hold exactly) and [NaN], which arithmetic on [undefined] gives. *)
Inductive Number : Type :=
| Num (z : Z)
| NaN.

Definition sub (a b : Number) : Number :=
  match a, b with
  | Num x, Num y => Num (x - y)
  | _, _ => NaN
  end.

(** Values of type [any], as far as the sources inspect them. *)
#[warnings="-register-all"]
Inductive Value : Type :=
| VUndefined
| VNull
| VBool (b : bool)
| VNum (n : Number)
| VStr (s : string)
| VArr (items : list Value)
| VObj (fields : list (string * Value)).

(** ToBoolean: [undefined], [null], [false], [0], [NaN] and the empty
    string are falsy, every array and object is truthy. *)
Definition truthy (v : Value) : bool :=
  match v with
  | VUndefined | VNull => false
  | VBool b => b
  | VNum (Num z) => negb (z =? 0)%Z
  | VNum NaN => false
  | VStr s => negb (String.eqb s "")
  | VArr _ | VObj _ => true
  end.

(** [n ? yes : no] on an optional number [n]: [undefined] and [0] are
    falsy; [yes] may use the number. *)
Definition ifNum {A} (n : option Z) (yes : Z -> A) (no : A) : A :=
  match n with
  | Some z => if (z =? 0)%Z then no else yes z
  | None => no
  end.

(** [array.sort()] with no comparator orders the elements by their string
    forms, compared code unit by code unit; ECMAScript requires the sort
    to be stable.  [toString] gives an element's string form. *)
Fixpoint insertSorted {A} (toString : A -> string) (x : A) (l : list A) : list A :=
  match l with
  | [] => [x]
  | y :: l' =>
      if String.ltb (toString y) (toString x) then y :: insertSorted toString x l'
      else x :: l
  end.

Definition sort {A} (toString : A -> string) (l : list A) : list A :=
  foldr (insertSorted toString) [] l.

(** [v === s] for a string [s]. *)
Definition eqStr (v : Value) (s : string) : bool :=
  match v with
  | VStr s' => String.eqb s' s
  | _ => false
  end.

(** [v === b] for a boolean [b]. *)
Definition eqBool (v : Value) (b : bool) : bool :=
  match v with
  | VBool b' => Bool.eqb b' b
  | _ => false
  end.

End Js.

(* ===================================================================== *)
(** * quick-open-service.ts: handlers shared by both revisions *)
(* ===================================================================== *)

(** [interface QuickOpenHandler]; [getModel] returns a promise of the
    handler's model, named here by the model it resolves to. *)
Record QuickOpenHandler : Type := mkHandler {
  prefix : string;
  description : string;
  getModel : nat
}.

(** The disposables the registries hand out: [Disposable.NULL], or the
    object whose [dispose] deletes one prefix from the handler map. *)
Inductive Disposable : Type :=
| NULL
| DeletePrefix (p : string).

#[global] Instance QuickOpenHandler_eq_dec : EqDecision QuickOpenHandler.
Proof. solve_decision. Defined.

#[global] Instance Disposable_eq_dec : EqDecision Disposable.
Proof. solve_decision. Defined.

(* ===================================================================== *)
(** * packages/core/src/browser/quick-open/quick-open-service.ts *)
(* ===================================================================== *)

Module QuickOpen.

Record QuickOpenHandlerRegistry : Type := mkRegistry {
  handlers : Js.Map QuickOpenHandler;
  toDispose : list Disposable;
  defaultHandler : option QuickOpenHandler;
  warnings : list string
}.

Definition empty : QuickOpenHandlerRegistry :=
  {| handlers := []; toDispose := []; defaultHandler := None; warnings := [] |}.

Definition registerHandler (r : QuickOpenHandlerRegistry) (handler : QuickOpenHandler)
  : QuickOpenHandlerRegistry * Disposable :=
  if Js.has (handlers r) (prefix handler) then
    ({| handlers := handlers r;
        toDispose := toDispose r;
        defaultHandler := defaultHandler r;
        warnings := warnings r ++
          ["A handler with name " +:+ prefix handler +:+ " is already registered."] |},
     NULL)
  else
    let disposable := DeletePrefix (prefix handler) in
    ({| handlers := Js.set (handlers r) (prefix handler) handler;
        toDispose := toDispose r ++ [disposable];
        defaultHandler := defaultHandler r;
        warnings := warnings r |},
     disposable).

Definition registerDefaultHandler (r : QuickOpenHandlerRegistry) (handler : QuickOpenHandler)
  : QuickOpenHandlerRegistry * Disposable :=
  let disposable := DeletePrefix (prefix handler) in
  ({| handlers := handlers r;
      toDispose := toDispose r ++ [disposable];
      defaultHandler := Some handler;
      warnings := warnings r |},
   disposable).

Definition getDefaultHandler (r : QuickOpenHandlerRegistry) : option QuickOpenHandler :=
  defaultHandler r.

Definition getHandlers (r : QuickOpenHandlerRegistry) : list QuickOpenHandler :=
  Js.values (handlers r).

(** The loop [for (const handler of this.handlers.values())]. *)
Fixpoint firstMatching (hs : list QuickOpenHandler) (text : string)
  : option QuickOpenHandler :=
  match hs with
  | [] => None
  | handler :: rest =>
      if Js.startsWith text (prefix handler) then Some handler
      else firstMatching rest text
  end.

Definition getHandlerForText (r : QuickOpenHandlerRegistry) (text : string)
  : option QuickOpenHandler :=
  firstMatching (Js.values (handlers r)) text.

(** Calling [dispose] on a disposable handed out by the registry. *)
Definition runDisposable (d : Disposable) (m : Js.Map QuickOpenHandler)
  : Js.Map QuickOpenHandler :=
  match d with
  | NULL => m
  | DeletePrefix p => Js.delete m p
  end.

(** Modelled from the spec: [DisposableCollection] (common/disposable) is
    not among the sources.  The collection is the list of what was pushed;
    disposing one member runs it and drops it from the list, and
    [dispose()] on the collection runs the members, newest first, and
    leaves the collection empty. *)
Definition disposeOne (r : QuickOpenHandlerRegistry) (d : Disposable)
  : QuickOpenHandlerRegistry :=
  {| handlers := runDisposable d (handlers r);
     toDispose := filter (fun d' => d' <> d) (toDispose r);
     defaultHandler := defaultHandler r;
     warnings := warnings r |}.

Definition dispose (r : QuickOpenHandlerRegistry) : QuickOpenHandlerRegistry :=
  {| handlers := fold_right runDisposable (handlers r) (toDispose r);
     toDispose := [];
     defaultHandler := defaultHandler r;
     warnings := warnings r |}.

(** The state-changing calls a client can make on a registry. *)
Inductive Op : Type :=
| OpRegisterHandler (handler : QuickOpenHandler)
| OpRegisterDefaultHandler (handler : QuickOpenHandler)
| OpDisposeOne (d : Disposable)
| OpDispose.

Definition step (r : QuickOpenHandlerRegistry) (op : Op) : QuickOpenHandlerRegistry :=
  match op with
  | OpRegisterHandler h => (registerHandler r h).1
  | OpRegisterDefaultHandler h => (registerDefaultHandler r h).1
  | OpDisposeOne d => disposeOne r d
  | OpDispose => dispose r
  end.

(** The options [show] passes to [open]. *)
Record QuickOpenOptions : Type := mkOptions {
  opt_prefix : option string;
  opt_placeholder : string;
  opt_fuzzyMatchLabel : bool;
  opt_fuzzySort : bool;
  opt_skipPrefix : bool
}.

(** What one call of the model's [onType] leads to. *)
Inductive Effect : Type :=
| Open (options : QuickOpenOptions)
| ModelOnType (handler : QuickOpenHandler) (searchValue : string)
| TypeError.

Record QuickOpenService : Type := mkService {
  currentPrefix : option string;
  registry : QuickOpenHandlerRegistry
}.

Definition show (prefix : option string) : Effect :=
  Open {| opt_prefix := prefix;
          opt_placeholder := "Type ? to get help on the actions you can take from here";
          opt_fuzzyMatchLabel := true;
          opt_fuzzySort := true;
          opt_skipPrefix := true |}.

(** [this.model.onType(lookFor, acceptor)].  A registry without a default
    handler makes [defHandler.getModel()] a call on [undefined]. *)
Definition onType (s : QuickOpenService) (lookFor : string)
  : QuickOpenService * Effect :=
  let handler := getHandlerForText (registry s) lookFor in
  let handlerPrefix := match handler with Some h => prefix h | None => "" end in
  if negb (bool_decide (Some handlerPrefix = currentPrefix s)) then
    ({| currentPrefix := Some handlerPrefix; registry := registry s |},
     show (Some lookFor))
  else
    match handler with
    | Some h =>
        let searchValue := Js.substr lookFor (String.length (prefix h)) in
        (s, ModelOnType h searchValue)
    | None =>
        match getDefaultHandler (registry s) with
        | Some defHandler => (s, ModelOnType defHandler lookFor)
        | None => (s, TypeError)
        end
    end.

(** Every entry of the handler map sits under its handler's prefix. *)
Definition keyed_by_prefix (r : QuickOpenHandlerRegistry) : Prop :=
  Forall (fun kh => kh.1 = prefix kh.2) (handlers r).

(** The list stands for a JavaScript map (no key twice) whose keys are the
    prefixes of its handlers. *)
Definition registry_ok (r : QuickOpenHandlerRegistry) : Prop :=
  keyed_by_prefix r /\ NoDup (Js.keys (handlers r)).

(** At most one handler per prefix. *)
Definition one_per_prefix (r : QuickOpenHandlerRegistry) : Prop :=
  NoDup (prefix <$> getHandlers r).

(** The registries a client can build. *)
Inductive reachable : QuickOpenHandlerRegistry -> Prop :=
| reachable_empty : reachable empty
| reachable_step r op : reachable r -> reachable (step r op).

End QuickOpen.

(* ===================================================================== *)
(** * src/unnamed/part_000: the earlier revision of the registry *)
(* ===================================================================== *)

Module QuickOpenLegacy.

Record QuickOpenHandlerRegistry : Type := mkRegistry {
  handlers : Js.Map QuickOpenHandler;
  toDispose : list Disposable;
  defaultHandler : option QuickOpenHandler;
  warnings : list string
}.

Definition empty : QuickOpenHandlerRegistry :=
  {| handlers := []; toDispose := []; defaultHandler := None; warnings := [] |}.

Definition registerHandler (r : QuickOpenHandlerRegistry) (handler : QuickOpenHandler)
  : QuickOpenHandlerRegistry * Disposable :=
  if Js.has (handlers r) (prefix handler) then
    ({| handlers := handlers r;
        toDispose := toDispose r;
        defaultHandler := defaultHandler r;
        warnings := warnings r ++
          ["A handler with name " +:+ prefix handler +:+ " is already registered."] |},
     NULL)
  else
    let disposable := DeletePrefix (prefix handler) in
    ({| handlers := Js.set (handlers r) (prefix handler) handler;
        toDispose := toDispose r ++ [disposable];
        defaultHandler := defaultHandler r;
        warnings := warnings r |},
     disposable).

(** In this revision the default handler has no disposable. *)
Definition registerDefaultHandler (r : QuickOpenHandlerRegistry) (handler : QuickOpenHandler)
  : QuickOpenHandlerRegistry :=
  {| handlers := handlers r;
     toDispose := toDispose r;
     defaultHandler := Some handler;
     warnings := warnings r |}.

Definition getHandlers (r : QuickOpenHandlerRegistry) : list QuickOpenHandler :=
  Js.values (handlers r).

(** [getHandler(id)] is [this.handlers.get(id)]. *)
Fixpoint getHandler' (m : Js.Map QuickOpenHandler) (id : string) : option QuickOpenHandler :=
  match m with
  | [] => None
  | (k, h) :: m' => if String.eqb k id then Some h else getHandler' m' id
  end.

Definition getHandler (r : QuickOpenHandlerRegistry) (id : string) : option QuickOpenHandler :=
  getHandler' (handlers r) id.

(** The loop of [getHandlerByText] over [this.handlers.values()]. *)
Fixpoint scan (hs : list QuickOpenHandler) (text : string) : option QuickOpenHandler :=
  match hs with
  | [] => None
  | handler :: rest =>
      if Js.startsWith text (prefix handler) then Some handler else scan rest text
  end.

Definition getHandlerByText (r : QuickOpenHandlerRegistry) (text : string)
  : option QuickOpenHandler :=
  scan (Js.values (handlers r)) text.

End QuickOpenLegacy.

(* ===================================================================== *)
(** * packages/debug-nodejs/src/node/debug-nodejs.ts *)
(* ===================================================================== *)

Module DebugNodeJs.

(** [DebugConfiguration] declares [type], [name] and an index signature
    [[key: string]: any]: an object read and written by key. *)
Definition get (config : gmap string Js.Value) (key : string) : Js.Value :=
  default Js.VUndefined (config !! key).

(** [{ filePatterns: ['[.]js$', '[.]ts$'] }]. *)
Definition breakpointsValue : Js.Value :=
  Js.VObj [("filePatterns", Js.VArr [Js.VStr "[.]js$"; Js.VStr "[.]ts$"])].

Definition debugType : string := "node".

(** The one entry of [provideDebugConfigurations]. *)
Definition attachByPid : gmap string Js.Value :=
  <["processId" := Js.VStr ""]>
  (<["name" := Js.VStr "Attach by PID"]>
  (<["request" := Js.VStr "attach"]>
  (<["breakpoints" := breakpointsValue]>
  (<["type" := Js.VStr debugType]> ∅)))).

Definition provideDebugConfigurations : list (gmap string Js.Value) :=
  [attachByPid].

(** How a call ends. *)
Inductive Completion : Type :=
| Returned
| Thrown (message : string).

Definition validateAttachConfig (config : gmap string Js.Value) : Completion :=
  if negb (Js.truthy (get config "processId")) then Thrown "PID is not provided."
  else Returned.

(** The result is the configuration object as the call leaves it (the
    assignment to [breakpoints] comes before the checks) and how the call
    ended; on [Returned] that object is the return value. *)
Definition resolveDebugConfiguration (config : gmap string Js.Value)
  : gmap string Js.Value * Completion :=
  let config := <["breakpoints" := breakpointsValue]> config in
  if negb (Js.truthy (get config "request")) then
    (config, Thrown "Debug request type is not provided.")
  else
    if Js.eqStr (get config "request") "attach" then
      (config, validateAttachConfig config)
    else (config, Returned).

Definition throws (c : Completion) : Prop := exists message, c = Thrown message.

(** A property is absent when reading it gives [undefined]. *)
Definition absent (config : gmap string Js.Value) (key : string) : Prop :=
  get config key = Js.VUndefined.

End DebugNodeJs.

(* ===================================================================== *)
(** * packages/preferences/src/browser/preferences-menu-factory.ts *)
(* ===================================================================== *)

Module PreferencesMenu.

(** [PreferenceProperty], as far as the factory reads it: [type] and
    [default] are looked at as plain values, [enum] is an optional array
    of strings. *)
Record PreferenceProperty : Type := mkProperty {
  type : Js.Value;
  default_ : Js.Value;
  enum : option (list string)
}.

(** The options given to [commands.addCommand].  [execute] is the call
    [execute(property, value)] the command makes when it runs. *)
Record CommandOptions : Type := mkCommand {
  label : string;
  iconClass : string;
  execute : string * Js.Value
}.

(** [{ type: 'command', command }]. *)
Record MenuItem : Type := mkItem {
  item_type : string;
  command : string
}.

(** A [Menu] with its [CommandRegistry]. *)
Record Menu : Type := mkMenu {
  commands : Js.Map CommandOptions;
  items : list MenuItem
}.

Definition hasCommand (m : Menu) (id : string) : bool := Js.has (commands m) id.

(** [commands.addCommand(id, options)] throws when the id is taken. *)
Definition addCommand (m : Menu) (id : string) (options : CommandOptions) : option Menu :=
  if hasCommand m id then None
  else Some {| commands := Js.set (commands m) id options; items := items m |}.

Definition addItem (m : Menu) (item : MenuItem) : Menu :=
  {| commands := commands m; items := items m ++ [item] |}.

Definition check (b : bool) : string := if b then "fa fa-check" else "".

(** The body of [enumConst.forEach]. *)
Definition addEnumValue (id : string) (savedPreference : Js.Value)
    (property : PreferenceProperty) (menu : option Menu) (enumValue : string)
  : option Menu :=
  m ← menu;
  let commandId := id +:+ "-" +:+ enumValue in
  if negb (hasCommand m commandId) then
    m' ← addCommand m commandId
          {| label := enumValue;
             iconClass := check (Js.eqStr savedPreference enumValue
                                 || negb (Js.truthy savedPreference)
                                    && Js.eqStr (default_ property) enumValue);
             execute := (id, Js.VStr enumValue) |};
    Some (addItem m' {| item_type := "command"; command := commandId |})
  else Some m.

(** [None] stands for an exception out of [addCommand]. *)
Definition createPreferenceContextMenu (id : string) (savedPreference : Js.Value)
    (property : option PreferenceProperty) : option Menu :=
  let menu := {| commands := []; items := [] |} in
  match property with
  | None => Some menu
  | Some property =>
      match enum property with
      | Some enumConst =>
          foldl (addEnumValue id savedPreference property) (Some menu) enumConst
      | None =>
          if Js.truthy (type property) && Js.eqStr (type property) "boolean" then
            let commandTrue := id +:+ "-true" in
            m1 ← addCommand menu commandTrue
                  {| label := "true";
                     iconClass := check (Js.eqStr savedPreference "true"
                                         || negb (Js.truthy savedPreference)
                                            && Js.eqBool (default_ property) true);
                     execute := (id, Js.VStr "true") |};
            let m2 := addItem m1 {| item_type := "command"; command := commandTrue |} in
            let commandFalse := id +:+ "-false" in
            m3 ← addCommand m2 commandFalse
                  {| label := "false";
                     iconClass := check (Js.eqStr savedPreference "false"
                                         || negb (Js.truthy savedPreference)
                                            && Js.eqBool (default_ property) false);
                     execute := (id, Js.VStr "false") |};
            Some (addItem m3 {| item_type := "command"; command := commandFalse |})
          else
            let commandId := id +:+ "-stringValue" in
            m1 ← addCommand menu commandId
                  {| label := "Add Value";
                     iconClass := "";
                     execute := (id, if Js.truthy (default_ property)
                                     then default_ property else Js.VStr "") |};
            Some (addItem m1 {| item_type := "command"; command := commandId |})
      end
  end.

(** The command an item stands for, looked up in the menu's registry. *)
Fixpoint lookupCommand (cs : Js.Map CommandOptions) (id : string) : option CommandOptions :=
  match cs with
  | [] => None
  | (k, c) :: cs' => if String.eqb k id then Some c else lookupCommand cs' id
  end.

Definition itemCommand (m : Menu) (item : MenuItem) : option CommandOptions :=
  lookupCommand (commands m) (command item).

(** What the menu shows and what each entry submits, in item order. *)
Definition itemLabels (m : Menu) : list (option string) :=
  (fun item => label <$> itemCommand m item) <$> items m.

Definition itemSubmits (m : Menu) : list (option (string * Js.Value)) :=
  (fun item => execute <$> itemCommand m item) <$> items m.

(** The enum values in order, each kept at its first occurrence. *)
Definition distinctValues (values : list string) : list string :=
  foldl (fun seen v => if bool_decide (v ∈ seen) then seen else seen ++ [v]) [] values.

(** The command and the item the factory makes for one enum value. *)
Definition enumCommand (id : string) (savedPreference : Js.Value)
    (property : PreferenceProperty) (enumValue : string) : string * CommandOptions :=
  (id +:+ "-" +:+ enumValue,
   {| label := enumValue;
      iconClass := check (Js.eqStr savedPreference enumValue
                          || negb (Js.truthy savedPreference)
                             && Js.eqStr (default_ property) enumValue);
      execute := (id, Js.VStr enumValue) |}).

Definition enumItem (id : string) (enumValue : string) : MenuItem :=
  {| item_type := "command"; command := id +:+ "-" +:+ enumValue |}.

(** The menu that offers exactly the given values, in that order. *)
Definition enumMenu (id : string) (savedPreference : Js.Value)
    (property : PreferenceProperty) (values : list string) : Menu :=
  {| commands := enumCommand id savedPreference property <$> values;
     items := enumItem id <$> values |}.

End PreferencesMenu.

(* ===================================================================== *)
(** * Debug protocol data read by the decorators and the widget *)
(* ===================================================================== *)

(** The declarations of [DebugProtocol] and [ExtDebugProtocol] are not
    among the sources; the records keep the fields the sources read. *)

Record StackFrame : Type := mkFrame {
  frame_line : Z;
  frame_column : Z;
  frame_endLine : option Z;
  frame_endColumn : option Z
}.

Record SourceBreakpoint : Type := mkSourceBreakpoint {
  sb_line : Z;
  sb_column : option Z
}.

(** [origin: SourceBreakpoint | FunctionBreakpoint | ExceptionBreakpoint]. *)
Inductive Origin : Type :=
| SourceOrigin (breakpoint : SourceBreakpoint)
| FunctionOrigin (name : string)
| ExceptionOrigin (filter : string).

(** [DebugProtocol.Breakpoint], the adapter's answer to a breakpoint. *)
Record Breakpoint : Type := mkBreakpoint {
  verified : bool
}.

Record AggregatedBreakpoint : Type := mkAggregated {
  source : option string;
  created : option Breakpoint;
  origin : Origin;
  sessionId : option string
}.

(* ===================================================================== *)
(** * src/unnamed/part_001: the editor decorators *)
(* ===================================================================== *)

Module Decorators.

Record Position : Type := mkPosition {
  line : Js.Number;
  character : Js.Number
}.

Record Range : Type := mkRange {
  start : Position;
  end_ : Position
}.

(** [Position.create] and [Range.create]. *)
Definition Position_create (line character : Js.Number) : Position :=
  {| line := line; character := character |}.

Definition Range_create (start end_ : Position) : Range :=
  {| start := start; end_ := end_ |}.

Record EditorDecorationOptions : Type := mkDecorationOptions {
  isWholeLine : bool;
  className : option string;
  glyphMarginClassName : option string
}.

Record EditorDecoration : Type := mkDecoration {
  range : Range;
  options : EditorDecorationOptions
}.

Record TextEditor : Type := mkEditor {
  uri : string
}.

Definition ActiveLineDecoration : EditorDecorationOptions :=
  {| isWholeLine := true;
     className := Some "theia-debug-active-line";
     glyphMarginClassName := None |}.

Definition InactiveBreakpointDecoration : EditorDecorationOptions :=
  {| isWholeLine := false;
     className := None;
     glyphMarginClassName := Some "theia-debug-inactive-breakpoint" |}.

Definition ActiveBreakpointDecoration : EditorDecorationOptions :=
  {| isWholeLine := false;
     className := None;
     glyphMarginClassName := Some "theia-debug-active-breakpoint" |}.

(** ** ActiveLineDecorator *)

Module ActiveLineDecorator.

Definition toRange (frame : StackFrame) : Range :=
  let start :=
    Position_create
      (Js.Num (frame_line frame - 1))
      (Js.ifNum (frame_endColumn frame)
         (fun _ => Js.Num (frame_column frame - 1)) (Js.Num 0)) in
  let end_ :=
    Position_create
      (Js.ifNum (frame_endLine frame)
         (fun endLine => Js.Num (endLine - 1)) (Js.Num (frame_line frame - 1)))
      (Js.ifNum (frame_endColumn frame)
         (fun endColumn => Js.Num (endColumn - 1)) (Js.Num 0)) in
  Range_create start end_.

(** [doShow]: the one [setDecorations] call it makes. *)
Definition doShow (editor : TextEditor) (frame : StackFrame)
  : TextEditor * list EditorDecoration :=
  (editor, [ {| range := toRange frame; options := ActiveLineDecoration |} ]).

End ActiveLineDecorator.

(** ** BreakpointDecorator *)

Module BreakpointDecorator.

(** [DebugUtils] and [BreakpointStorage] are injected and not among the
    sources: the decorator is given their functions. *)
Record DebugUtils : Type := mkDebugUtils {
  isSourceBreakpoint : AggregatedBreakpoint -> bool;
  checkUri : AggregatedBreakpoint -> string -> bool
}.

Record BreakpointStorage : Type := mkStorage {
  get : (AggregatedBreakpoint -> bool) -> list AggregatedBreakpoint
}.

(** [(b.origin as DebugProtocol.SourceBreakpoint).line]: the cast checks
    nothing, and an origin of another kind has no [line]. *)
Definition originLine (o : Origin) : option Z :=
  match o with
  | SourceOrigin breakpoint => Some (sb_line breakpoint)
  | _ => None
  end.

(** [breakpoint.line - 1], where a missing line makes [NaN]. *)
Definition lineMinusOne (o : Origin) : Js.Number :=
  Js.sub (match originLine o with Some l => Js.Num l | None => Js.NaN end) (Js.Num 1).

Definition toRange (breakpoint : Origin) : Range :=
  Range_create (Position_create (lineMinusOne breakpoint) (Js.Num 0))
               (Position_create (lineMinusOne breakpoint) (Js.Num 0)).

(** [!!b.created && !!b.created.verified]. *)
Definition isVerified (b : AggregatedBreakpoint) : bool :=
  match created b with
  | Some c => verified c
  | None => false
  end.

Definition decorate (b : AggregatedBreakpoint) : EditorDecoration :=
  {| range := toRange (origin b);
     options := if isVerified b then ActiveBreakpointDecoration
                else InactiveBreakpointDecoration |}.

(** The result lists the [setDecorations(e, decorations)] calls in the
    order [editors.forEach] makes them; [all] is [editorManager.all]
    mapped to the widgets' editors. *)
Definition applyDecorations (utils : DebugUtils) (breakpointStorage : BreakpointStorage)
    (all : list TextEditor) (editor : option TextEditor)
  : list (TextEditor * list EditorDecoration) :=
  let editors := match editor with Some e => [e] | None => all end in
  (fun e =>
     let decorations :=
       decorate <$>
         filter (fun b => checkUri utils b (uri e) = true)
                (get breakpointStorage (isSourceBreakpoint utils)) in
     (e, decorations)) <$> editors.

(** The stored source breakpoints whose URI matches the editor's. *)
Definition shownIn (utils : DebugUtils) (breakpointStorage : BreakpointStorage)
    (e : TextEditor) : list AggregatedBreakpoint :=
  filter (fun b => checkUri utils b (uri e) = true)
         (get breakpointStorage (isSourceBreakpoint utils)).

(** Decoration [d] is the one asked for breakpoint [b]: at line
    [breakpoint.line - 1], column [0], for a source breakpoint; active
    when [b] has a created response that is verified, inactive when not. *)
Definition decorates (b : AggregatedBreakpoint) (d : EditorDecoration) : Prop :=
  (forall sb, origin b = SourceOrigin sb ->
     range d =
       Range_create (Position_create (Js.Num (sb_line sb - 1)) (Js.Num 0))
                    (Position_create (Js.Num (sb_line sb - 1)) (Js.Num 0))) /\
  ((exists c, created b = Some c /\ verified c = true) ->
     options d = ActiveBreakpointDecoration) /\
  (~ (exists c, created b = Some c /\ verified c = true) ->
     options d = InactiveBreakpointDecoration).

End BreakpointDecorator.

End Decorators.

(* ===================================================================== *)
(** * packages/debug/src/browser/view/debug-breakpoints-widget.ts *)
(* ===================================================================== *)

Module BreakpointsWidget.

Record DebugSession : Type := mkSession {
  session_sessionId : string
}.

(** [BreakpointsManager] is injected and not among the sources; [get] and
    [getAll] stand for the lists their promises resolve to. *)
Record BreakpointsManager : Type := mkManager {
  get : string -> list AggregatedBreakpoint;
  getAll : list AggregatedBreakpoint
}.

Record DebugBreakpointsWidget : Type := mkWidget {
  id : string;
  debugSession : option DebugSession;
  breakpoints : list AggregatedBreakpoint;
  updates : nat
}.

(** The constructor; [updates] counts the calls of [super.update()]. *)
Definition construct (debugSession : option DebugSession) : DebugBreakpointsWidget :=
  {| id := "debug-breakpoints" +:+
           match debugSession with
           | Some s => "-" +:+ session_sessionId s
           | None => ""
           end;
     debugSession := debugSession;
     breakpoints := [];
     updates := 0 |}.

(** The string form of a breakpoint, a plain object. *)
Definition toString (b : AggregatedBreakpoint) : string := "[object Object]".

Definition refreshBreakpoints (breakpointManager : BreakpointsManager)
    (w : DebugBreakpointsWidget) : DebugBreakpointsWidget :=
  let fetched :=
    match debugSession w with
    | Some s => get breakpointManager (session_sessionId s)
    | None => getAll breakpointManager
    end in
  {| id := id w;
     debugSession := debugSession w;
     breakpoints := Js.sort toString fetched;
     updates := S (updates w) |}.

End BreakpointsWidget.

(* ===================================================================== *)
(** * packages/markers/src/browser/marker-tree.ts *)
(* ===================================================================== *)

Module Markers.

(** [Marker<T>] (common/marker.ts): the tree only passes markers on. *)
Record Marker : Type := mkMarker {
  marker_uri : string;
  marker_owner : string;
  marker_data : Js.Value
}.

(** Tree nodes are objects that the tree, its index and other nodes share
    by reference: a reference is a position in the heap of node objects. *)
Abbreviation ref := nat (only parsing).

Record MarkerRootNode : Type := mkRootNode {
  root_visible : bool;
  root_id : string;
  root_name : string;
  root_kind : string;
  root_children : list ref
}.

Record MarkerInfoNode : Type := mkInfoNode {
  info_children : list ref;
  info_expanded : bool;
  info_uri : string;
  info_id : string;
  info_name : string;
  info_icon : string;
  info_description : string;
  info_parent : ref;
  info_selected : bool;
  numberOfMarkers : nat
}.

Record MarkerNode : Type := mkMarkerNode {
  node_id : string;
  node_name : string;
  node_parent : ref;
  node_selected : bool;
  node_uri : string;
  marker : Marker
}.

(** The three shapes of object this tree holds.  [MarkerRootNode.is],
    [MarkerInfoNode.is] and [MarkerNode.is] test for the fields that tell
    them apart ([kind]; [children], [expanded] and [uri]; [marker]). *)
Inductive TreeNode : Type :=
| RootNode (n : MarkerRootNode)
| InfoNode (n : MarkerInfoNode)
| LeafNode (n : MarkerNode).

Definition nodeId (n : TreeNode) : string :=
  match n with
  | RootNode r => root_id r
  | InfoNode i => info_id i
  | LeafNode l => node_id l
  end.

(** [node.children] of a composite node; a leaf has none. *)
Definition childrenOf (n : TreeNode) : list ref :=
  match n with
  | RootNode r => root_children r
  | InfoNode i => info_children i
  | LeafNode _ => []
  end.

Definition withChildren (n : TreeNode) (children : list ref) : TreeNode :=
  match n with
  | RootNode r =>
      RootNode {| root_visible := root_visible r; root_id := root_id r;
                  root_name := root_name r; root_kind := root_kind r;
                  root_children := children |}
  | InfoNode i =>
      InfoNode {| info_children := children; info_expanded := info_expanded i;
                  info_uri := info_uri i; info_id := info_id i;
                  info_name := info_name i; info_icon := info_icon i;
                  info_description := info_description i;
                  info_parent := info_parent i; info_selected := info_selected i;
                  numberOfMarkers := numberOfMarkers i |}
  | LeafNode l => LeafNode l
  end.

(** The tree: the node objects, the index of [TreeImpl] from ids to nodes,
    the root, and how often [fireChanged] ran. *)
Record MarkerTree : Type := mkTree {
  heap : list TreeNode;
  nodes : gmap string ref;
  root : ref;
  changes : nat
}.

Definition withHeap (t : MarkerTree) (h : list TreeNode) : MarkerTree :=
  {| heap := h; nodes := nodes t; root := root t; changes := changes t |}.

Definition withNodes (t : MarkerTree) (index : gmap string ref) : MarkerTree :=
  {| heap := heap t; nodes := index; root := root t; changes := changes t |}.

(** The children of the root, read through the heap. *)
Definition rootChildren (t : MarkerTree) : list ref :=
  match heap t !! root t with
  | Some n => childrenOf n
  | None => []
  end.

(** ** The operations inherited from [TreeImpl] *)

(** Modelled from the spec: [TreeImpl] (@theia/core, browser/tree) is not
    among the sources; the spec calls the tree "a tree model mapping
    source-file URIs to per-file diagnostic groups and per-diagnostic leaf
    nodes".  [getNode(id)] is the node the tree's index holds for [id]. *)
Definition getNode (t : MarkerTree) (id : string) : option ref := nodes t !! id.

(** Modelled from the spec: [TreeImpl.removeChild(parent, child)] takes
    the child out of the parent's children. *)
Definition removeChild (t : MarkerTree) (parent child : ref) : MarkerTree :=
  match heap t !! parent with
  | Some p =>
      withHeap t (<[parent := withChildren p (filter (fun c => c <> child) (childrenOf p))]> (heap t))
  | None => t
  end.

(** Modelled from the spec: [TreeImpl.addChild(parent, child)] puts the
    child among the parent's children, once. *)
Definition addChild (t : MarkerTree) (parent child : ref) : MarkerTree :=
  match heap t !! parent with
  | Some p =>
      if bool_decide (child ∈ childrenOf p) then t
      else withHeap t (<[parent := withChildren p (childrenOf p ++ [child])]> (heap t))
  | None => t
  end.

(** Modelled from the spec: [TreeImpl.removeNode(node)] makes the index
    forget the node and the nodes below it.  [depth] is the number of
    levels visited; the marker tree has three (root, per-file node,
    marker). *)
Fixpoint removeNodeRec (depth : nat) (h : list TreeNode) (index : gmap string ref)
    (r : ref) : gmap string ref :=
  match depth with
  | 0 => index
  | S d =>
      match h !! r with
      | Some n => delete (nodeId n) (foldl (removeNodeRec d h) index (childrenOf n))
      | None => index
      end
  end.

Definition removeNode (t : MarkerTree) (r : ref) : MarkerTree :=
  withNodes t (removeNodeRec 3 (heap t) (nodes t) r).

(** Modelled from the spec: [TreeImpl.addNode(node)] enters the node and
    the nodes below it in the index, each under its id. *)
Fixpoint addNodeRec (depth : nat) (h : list TreeNode) (index : gmap string ref)
    (r : ref) : gmap string ref :=
  match depth with
  | 0 => index
  | S d =>
      match h !! r with
      | Some n => foldl (addNodeRec d h) (<[nodeId n := r]> index) (childrenOf n)
      | None => index
      end
  end.

(** Modelled from the spec: [TreeImpl.setChildren(parent, children)]
    gives the node its new children; the index forgets what was below the
    node and learns what is below it now. *)
Definition setChildren (t : MarkerTree) (parent : ref) (children : list ref) : MarkerTree :=
  match heap t !! parent with
  | Some p =>
      let index := removeNodeRec 3 (heap t) (nodes t) parent in
      let h := <[parent := withChildren p children]> (heap t) in
      {| heap := h; nodes := addNodeRec 3 h index parent;
         root := root t; changes := changes t |}
  | None => t
  end.

(** Modelled from the spec: [TreeImpl.fireChanged()] tells the listeners. *)
Definition fireChanged (t : MarkerTree) : MarkerTree :=
  {| heap := heap t; nodes := nodes t; root := root t; changes := S (changes t) |}.

(** ** The collaborators of the tree *)

(** [MarkerManager], [LabelProvider] and [URI] are not among the sources:
    the tree is given what their calls return.  A URI is kept as the
    string [uri.toString()] gives. *)
Record MarkerManager : Type := mkMarkerManager {
  findMarkers : string -> list Marker;
  getUris : list string
}.

Record LabelProvider : Type := mkLabelProvider {
  getName : string -> string;
  getIcon : string -> string;
  getLongName : string -> string
}.

Section MarkerTree.

Variable labelProvider : LabelProvider.
Variable uriParent : string -> string.
Variable markerOptions_kind : string.

(** The constructor, at a time when the store has no markers: a tree
    with the root node only, which the index holds under its id. *)
Definition construct : MarkerTree :=
  let id := "theia-" +:+ markerOptions_kind +:+ "-marker-widget" in
  {| heap := [RootNode {| root_visible := false; root_id := id;
                          root_name := "MarkerTree"; root_kind := markerOptions_kind;
                          root_children := [] |}];
     nodes := {[ id := 0 ]};
     root := 0;
     changes := 0 |}.

(** [createMarkerInfo]: a new per-file node object, a child of the root. *)
Definition createMarkerInfo (t : MarkerTree) (id uri : string) : MarkerTree * ref :=
  let node :=
    InfoNode {| info_children := []; info_expanded := true; info_uri := uri;
                info_id := id; info_name := getName labelProvider uri;
                info_icon := getIcon labelProvider uri;
                info_description := getLongName labelProvider (uriParent uri);
                info_parent := root t; info_selected := false;
                numberOfMarkers := 0 |} in
  (withHeap t (heap t ++ [node]), length (heap t)).

(** [createMarkerNode]: the marker node with id [parent.id + '_' + index]
    that the index already holds, given the new marker, or a new one.
    The parent is a per-file node wherever the tree calls this. *)
Definition createMarkerNode (t : MarkerTree) (marker : Marker) (index : nat)
    (parent : ref) : MarkerTree * ref :=
  match heap t !! parent with
  | Some (InfoNode p) =>
      let id := info_id p +:+ "_" +:+ pretty index in
      let fresh :=
        LeafNode {| node_id := id; node_name := "marker"; node_parent := parent;
                    node_selected := false; node_uri := info_uri p;
                    marker := marker |} in
      match getNode t id with
      | Some existing =>
          match heap t !! existing with
          | Some (LeafNode l) =>
              (withHeap t
                 (<[existing :=
                      LeafNode {| node_id := node_id l; node_name := node_name l;
                                  node_parent := node_parent l;
                                  node_selected := node_selected l;
                                  node_uri := node_uri l; marker := marker |}]>
                    (heap t)),
               existing)
          | _ => (withHeap t (heap t ++ [fresh]), length (heap t))
          end
      | None => (withHeap t (heap t ++ [fresh]), length (heap t))
      end
  | _ => (t, parent)
  end.

(** [markers.map((marker, index) => this.createMarkerNode(...))], from a
    given index on. *)
Fixpoint getMarkerNodesFrom (t : MarkerTree) (parent : ref) (markers : list Marker)
    (index : nat) : MarkerTree * list ref :=
  match markers with
  | [] => (t, [])
  | marker :: rest =>
      let '(t1, child) := createMarkerNode t marker index parent in
      let '(t2, children) := getMarkerNodesFrom t1 parent rest (S index) in
      (t2, child :: children)
  end.

Definition getMarkerNodes (t : MarkerTree) (parent : ref) (markers : list Marker)
  : MarkerTree * list ref :=
  getMarkerNodesFrom t parent markers 0.

(** [node.numberOfMarkers = n]. *)
Definition setNumberOfMarkers (t : MarkerTree) (node : ref) (n : nat) : MarkerTree :=
  match heap t !! node with
  | Some (InfoNode i) =>
      withHeap t
        (<[node :=
             InfoNode {| info_children := info_children i;
                         info_expanded := info_expanded i; info_uri := info_uri i;
                         info_id := info_id i; info_name := info_name i;
                         info_icon := info_icon i;
                         info_description := info_description i;
                         info_parent := info_parent i;
                         info_selected := info_selected i;
                         numberOfMarkers := n |}]> (heap t))
  | _ => t
  end.

(** [MarkerInfoNode.is(existing)], giving the node when it is one. *)
Definition asMarkerInfoNode (t : MarkerTree) (existing : option ref)
  : option (ref * MarkerInfoNode) :=
  match existing with
  | Some e =>
      match heap t !! e with
      | Some (InfoNode n) => Some (e, n)
      | _ => None
      end
  | None => None
  end.

(** [refreshMarkerInfo(uri)], run without interruption: the awaited label
    provider answers at once. *)
Definition refreshMarkerInfo (markerManager : MarkerManager) (t : MarkerTree)
    (uri : string) : MarkerTree :=
  let id := uri in
  let existing := getNode t id in
  let markers := findMarkers markerManager uri in
  if (length markers <=? 0)%nat then
    match asMarkerInfoNode t existing with
    | Some (e, n) => fireChanged (removeNode (removeChild t (info_parent n) e) e)
    | None => t
    end
  else
    let '(t1, node, parent) :=
      match asMarkerInfoNode t existing with
      | Some (e, n) => (t, e, info_parent n)
      | None => let '(t1, e) := createMarkerInfo t id uri in (t1, e, root t)
      end in
    let t2 := addChild t1 parent node in
    let '(t3, children) := getMarkerNodes t2 node markers in
    let t4 := setNumberOfMarkers t3 node (length markers) in
    setChildren t4 node children.

(** The trees that the constructor and refreshes lead to; the marker
    store may have changed from one refresh to the next. *)
Inductive reachable : MarkerTree -> Prop :=
| reachable_construct : reachable construct
| reachable_refresh t markerManager uri :
    reachable t -> reachable (refreshMarkerInfo markerManager t uri).

End MarkerTree.

(** ** Consistency of a tree *)

(** The index holds each node under the node's own id. *)
Definition index_consistent (h : list TreeNode) (index : gmap string ref) : Prop :=
  forall k r, index !! k = Some r -> exists n, h !! r = Some n /\ nodeId n = k.

(** The per-file nodes the index holds have the root as their parent. *)
Definition info_under_root (t : MarkerTree) : Prop :=
  forall k r n, nodes t !! k = Some r -> heap t !! r = Some (InfoNode n) ->
    info_parent n = root t.

Definition root_is_root (t : MarkerTree) : Prop :=
  exists n, heap t !! root t = Some (RootNode n).

Definition tree_ok (t : MarkerTree) : Prop :=
  index_consistent (heap t) (nodes t) /\ info_under_root t /\ root_is_root t.

(** The id of the marker node at position [i] below the node with id [pid]. *)
Definition markerNodeId (pid : string) (i : nat) : string :=
  pid +:+ "_" +:+ pretty i.

(** What one heap keeps of another: every object is still there with its
    id; a marker node is still a marker node, and any other object is
    untouched. *)
Definition sameButMarker (n n' : TreeNode) : Prop :=
  match n with
  | LeafNode _ => exists l', n' = LeafNode l'
  | _ => n' = n
  end.

Definition keeps (h h' : list TreeNode) : Prop :=
  forall r n, h !! r = Some n ->
    exists n', h' !! r = Some n' /\ nodeId n' = nodeId n /\ sameButMarker n n'.

(** A per-file node with another count, or with other children. *)
Definition withCount (n : MarkerInfoNode) (count : nat) : MarkerInfoNode :=
  {| info_children := info_children n; info_expanded := info_expanded n;
     info_uri := info_uri n; info_id := info_id n; info_name := info_name n;
     info_icon := info_icon n; info_description := info_description n;
     info_parent := info_parent n; info_selected := info_selected n;
     numberOfMarkers := count |}.

Definition withInfoChildren (n : MarkerInfoNode) (cs : list ref) : MarkerInfoNode :=
  {| info_children := cs; info_expanded := info_expanded n;
     info_uri := info_uri n; info_id := info_id n; info_name := info_name n;
     info_icon := info_icon n; info_description := info_description n;
     info_parent := info_parent n; info_selected := info_selected n;
     numberOfMarkers := numberOfMarkers n |}.

(** Every per-file node under the root is the node the index holds for
    its id. *)
Definition children_indexed (t : MarkerTree) : Prop :=
  forall e (n : MarkerInfoNode),
    e ∈ rootChildren t -> heap t !! e = Some (InfoNode n) ->
    getNode t (info_id n) = Some e.

(** What [refreshMarkerInfo(uri)] leaves behind, by the store's markers. *)
Definition refreshed (t t' : MarkerTree) (uri : string) (markers : list Marker) : Prop :=
  match markers with
  | [] =>
      (forall e (n : MarkerInfoNode),
         getNode t' uri = Some e -> heap t' !! e <> Some (InfoNode n)) /\
      (forall e (n : MarkerInfoNode),
         getNode t uri = Some e -> heap t !! e = Some (InfoNode n) ->
         getNode t' uri = None /\ e ∉ rootChildren t')
  | _ :: _ =>
      exists e (n : MarkerInfoNode),
        getNode t' uri = Some e /\
        heap t' !! e = Some (InfoNode n) /\
        info_id n = uri /\
        e ∈ rootChildren t' /\
        numberOfMarkers n = length markers /\
        length (info_children n) = length markers /\
        forall i m, markers !! i = Some m ->
          exists c l, info_children n !! i = Some c /\
                      heap t' !! c = Some (LeafNode l) /\
                      marker l = m /\ node_id l = markerNodeId uri i
  end.

End Markers.

(* ===================================================================== *)
(** * Sample data *)
(* ===================================================================== *)

Module Samples.

(** The help handler of the sources (prefix ['?'], empty description), a
    command handler and a file handler. *)
Definition helpHandler : QuickOpenHandler := mkHandler "?" "" 0.
Definition commandHandler : QuickOpenHandler := mkHandler ">" "Quick Command" 1.
Definition fileHandler : QuickOpenHandler := mkHandler "" "Open File" 2.

Definition registry : QuickOpen.QuickOpenHandlerRegistry :=
  QuickOpen.step
    (QuickOpen.step
       (QuickOpen.step QuickOpen.empty (QuickOpen.OpRegisterHandler helpHandler))
       (QuickOpen.OpRegisterHandler commandHandler))
    (QuickOpen.OpRegisterDefaultHandler fileHandler).

Definition legacyRegistry : QuickOpenLegacy.QuickOpenHandlerRegistry :=
  (QuickOpenLegacy.registerHandler
     (QuickOpenLegacy.registerHandler QuickOpenLegacy.empty helpHandler).1
     commandHandler).1.

(** The service while the command handler's prefix is showing, and while
    no prefix is. *)
Definition commandService : QuickOpen.QuickOpenService :=
  {| QuickOpen.currentPrefix := Some ">"; QuickOpen.registry := registry |}.


(** A frame with an end position. *)
Definition frame : StackFrame :=
  {| frame_line := 10; frame_column := 5;
     frame_endLine := Some 12%Z; frame_endColumn := Some 9%Z |}.

(** A preference with an enum that names one value twice, a boolean
    preference, and a numeric preference whose default is [0]. *)
Definition autoSave : PreferencesMenu.PreferenceProperty :=
  {| PreferencesMenu.type := Js.VStr "string";
     PreferencesMenu.default_ := Js.VStr "on";
     PreferencesMenu.enum := Some ["on"; "off"; "on"] |}.

Definition minimap : PreferencesMenu.PreferenceProperty :=
  {| PreferencesMenu.type := Js.VStr "boolean";
     PreferencesMenu.default_ := Js.VBool true;
     PreferencesMenu.enum := None |}.

Definition tabSize : PreferencesMenu.PreferenceProperty :=
  {| PreferencesMenu.type := Js.VStr "number";
     PreferencesMenu.default_ := Js.VNum (Js.Num 0);
     PreferencesMenu.enum := None |}.

(** Breakpoints in two files, one of them verified, and a function
    breakpoint; the utilities tell a source breakpoint by its [source]. *)
Definition verifiedAt (file : string) (line : Z) : AggregatedBreakpoint :=
  {| source := Some file; created := Some {| verified := true |};
     origin := SourceOrigin {| sb_line := line; sb_column := None |};
     sessionId := Some "session-1" |}.

Definition pendingAt (file : string) (line : Z) : AggregatedBreakpoint :=
  {| source := Some file; created := None;
     origin := SourceOrigin {| sb_line := line; sb_column := None |};
     sessionId := None |}.

Definition onFunction (name : string) : AggregatedBreakpoint :=
  {| source := None; created := None; origin := FunctionOrigin name;
     sessionId := None |}.

Definition stored : list AggregatedBreakpoint :=
  [verifiedAt "file:///a.ts" 3; onFunction "main"; pendingAt "file:///b.ts" 7;
   pendingAt "file:///a.ts" 12].

Definition utils : Decorators.BreakpointDecorator.DebugUtils :=
  {| Decorators.BreakpointDecorator.isSourceBreakpoint :=
       fun b => match source b with Some _ => true | None => false end;
     Decorators.BreakpointDecorator.checkUri :=
       fun b uri => match source b with
                    | Some file => String.eqb file uri
                    | None => false
                    end |}.

Definition storage : Decorators.BreakpointDecorator.BreakpointStorage :=
  {| Decorators.BreakpointDecorator.get := fun keep => List.filter keep stored |}.

Definition editorA : Decorators.TextEditor := {| Decorators.uri := "file:///a.ts" |}.
Definition editorB : Decorators.TextEditor := {| Decorators.uri := "file:///b.ts" |}.

Definition manager : BreakpointsWidget.BreakpointsManager :=
  {| BreakpointsWidget.get := fun id =>
       List.filter (fun b => match sessionId b with
                             | Some s => String.eqb s id
                             | None => false
                             end) stored;
     BreakpointsWidget.getAll := stored |}.

(** Two files, the name of the second being the first's with [_0] added,
    and three states of the marker store. *)
Definition uriA : string := "file:///a".
Definition uriA0 : string := "file:///a_0".

Definition markerOf (uri : string) : Markers.Marker :=
  {| Markers.marker_uri := uri; Markers.marker_owner := "problem";
     Markers.marker_data := Js.VNull |}.

Definition storeA0 : Markers.MarkerManager :=
  {| Markers.findMarkers := fun uri =>
       if String.eqb uri uriA0 then [markerOf uriA0] else [];
     Markers.getUris := [uriA0] |}.

Definition storeBoth : Markers.MarkerManager :=
  {| Markers.findMarkers := fun uri =>
       if String.eqb uri uriA0 then [markerOf uriA0]
       else if String.eqb uri uriA then [markerOf uriA] else [];
     Markers.getUris := [uriA0; uriA] |}.

Definition storeA : Markers.MarkerManager :=
  {| Markers.findMarkers := fun uri =>
       if String.eqb uri uriA then [markerOf uriA] else [];
     Markers.getUris := [uriA] |}.

Definition labels : Markers.LabelProvider :=
  {| Markers.getName := fun uri => uri;
     Markers.getIcon := fun _ => "file-icon";
     Markers.getLongName := fun uri => uri |}.

Definition parentOf (uri : string) : string := "file:///".

(** The tree after the markers of [uriA0] arrived, then those of [uriA],
    and then after those of [uriA0] went away. *)
Definition tree0 : Markers.MarkerTree := Markers.construct "problem".
Definition tree1 : Markers.MarkerTree :=
  Markers.refreshMarkerInfo labels parentOf storeA0 tree0 uriA0.
Definition tree2 : Markers.MarkerTree :=
  Markers.refreshMarkerInfo labels parentOf storeBoth tree1 uriA.
Definition tree3 : Markers.MarkerTree :=
  Markers.refreshMarkerInfo labels parentOf storeA tree2 uriA0.

End Samples.

(* ===================================================================== *)
(** * quick-open-service.ts: the options, the help handler *)
(* ===================================================================== *)

Module QuickOpenModel.

(** Modelled from the spec: [QuickOpenMode] and [QuickOpenItem]
    (./quick-open-model) are not among the sources.  The sources compare
    a mode with [QuickOpenMode.OPEN] and construct items from a label, a
    description and a [run] callback: an item is kept as those three.
    [run] gives the boolean it returns and the calls [E] it makes. *)
Inductive QuickOpenMode : Type :=
| PREVIEW
| OPEN
| OPEN_IN_BACKGROUND.

Record QuickOpenItem (E : Type) : Type := mkItem {
  item_label : string;
  item_description : string;
  run : QuickOpenMode -> bool * list E
}.

Arguments mkItem {E} _ _ _.
Arguments item_label {E} _.
Arguments item_description {E} _.
Arguments run {E} _ _.

#[global] Instance QuickOpenMode_eq_dec : EqDecision QuickOpenMode.
Proof. solve_decision. Defined.

End QuickOpenModel.

Module QuickOpenOptions.

(** The [onClose] callback: the no-op of [defaultOptions], or a callback
    of the caller, named by a number. *)
Inductive OnClose : Type :=
| NoOp
| Callback (name : nat).

(** The object [resolve] returns, with the properties of
    [interface Resolved].  [Object.assign] copies whatever the options
    hold, and the declared types do not keep [undefined] out at run time:
    each property holds a value or [undefined], which is [None]. *)
Record Resolved : Type := mkResolved {
  res_prefix : option string;
  res_placeholder : option string;
  res_fuzzyMatchLabel : option bool;
  res_fuzzyMatchDetail : option bool;
  res_fuzzyMatchDescription : option bool;
  res_fuzzySort : option bool;
  res_skipPrefix : option bool;
  res_showItemsWithoutHighlight : option bool;
  res_selectIndex : option (string -> Z);
  res_onClose : option OnClose
}.

(** [type QuickOpenOptions = Partial<Resolved>]: a property is not there
    ([None]), or it is there and holds a value ([Some (Some v)]) or
    [undefined] ([Some None]). *)
Record Partial : Type := mkPartial {
  part_prefix : option (option string);
  part_placeholder : option (option string);
  part_fuzzyMatchLabel : option (option bool);
  part_fuzzyMatchDetail : option (option bool);
  part_fuzzyMatchDescription : option (option bool);
  part_fuzzySort : option (option bool);
  part_skipPrefix : option (option bool);
  part_showItemsWithoutHighlight : option (option bool);
  part_selectIndex : option (option (string -> Z));
  part_onClose : option (option OnClose)
}.

Definition defaultOptions : Resolved :=
  {| res_prefix := Some "";
     res_placeholder := Some "";
     res_fuzzyMatchLabel := Some false;
     res_fuzzyMatchDetail := Some false;
     res_fuzzyMatchDescription := Some false;
     res_fuzzySort := Some false;
     res_skipPrefix := Some false;
     res_showItemsWithoutHighlight := Some false;
     res_selectIndex := Some (fun _ => (-1)%Z);
     res_onClose := Some NoOp |}.

(** The object literal [{}]. *)
Definition noOptions : Partial :=
  {| part_prefix := None; part_placeholder := None;
     part_fuzzyMatchLabel := None; part_fuzzyMatchDetail := None;
     part_fuzzyMatchDescription := None; part_fuzzySort := None;
     part_skipPrefix := None; part_showItemsWithoutHighlight := None;
     part_selectIndex := None; part_onClose := None |}.

(** One property of [Object.assign({}, source, options)]: what [options]
    holds for it when the property is there, be it [undefined], and what
    [source] holds when it is not. *)
Definition assigned {V} (source : option V) (given : option (option V)) : option V :=
  match given with
  | Some held => held
  | None => source
  end.

(** [Object.assign({}, source, options)]. *)
Definition assign (source : Resolved) (options : Partial) : Resolved :=
  {| res_prefix := assigned (res_prefix source) (part_prefix options);
     res_placeholder := assigned (res_placeholder source) (part_placeholder options);
     res_fuzzyMatchLabel :=
       assigned (res_fuzzyMatchLabel source) (part_fuzzyMatchLabel options);
     res_fuzzyMatchDetail :=
       assigned (res_fuzzyMatchDetail source) (part_fuzzyMatchDetail options);
     res_fuzzyMatchDescription :=
       assigned (res_fuzzyMatchDescription source) (part_fuzzyMatchDescription options);
     res_fuzzySort := assigned (res_fuzzySort source) (part_fuzzySort options);
     res_skipPrefix := assigned (res_skipPrefix source) (part_skipPrefix options);
     res_showItemsWithoutHighlight :=
       assigned (res_showItemsWithoutHighlight source)
                (part_showItemsWithoutHighlight options);
     res_selectIndex := assigned (res_selectIndex source) (part_selectIndex options);
     res_onClose := assigned (res_onClose source) (part_onClose options) |}.

(** [resolve(options = {}, source = defaultOptions)]; an argument that is
    left out or [undefined] is [None] and gets the parameter's default. *)
Definition resolve (options : option Partial) (source : option Resolved) : Resolved :=
  assign (default defaultOptions source) (default noOptions options).

(** [show1(customOpts)]: the options it passes to [open]. *)
Definition show1 (customOpts : option Partial) : Resolved :=
  let options := resolve customOpts None in
  resolve
    (Some {| part_prefix := None;
             part_placeholder :=
               Some (Some "Type ? to get help on the actions you can take from here");
             part_fuzzyMatchLabel := None; part_fuzzyMatchDetail := None;
             part_fuzzyMatchDescription := None; part_fuzzySort := None;
             part_skipPrefix := Some (Some true);
             part_showItemsWithoutHighlight := None;
             part_selectIndex := None; part_onClose := None |})
    (Some options).

(** Custom options without the two properties [show1] sets itself. *)
Definition withoutOverridden (o : Partial) : Partial :=
  {| part_prefix := part_prefix o; part_placeholder := None;
     part_fuzzyMatchLabel := part_fuzzyMatchLabel o;
     part_fuzzyMatchDetail := part_fuzzyMatchDetail o;
     part_fuzzyMatchDescription := part_fuzzyMatchDescription o;
     part_fuzzySort := part_fuzzySort o;
     part_skipPrefix := None;
     part_showItemsWithoutHighlight := part_showItemsWithoutHighlight o;
     part_selectIndex := part_selectIndex o; part_onClose := part_onClose o |}.

End QuickOpenOptions.

Module HelpQuickOpenHandler.

Import QuickOpenModel.

(** [readonly prefix: string = '?'] and [description = '']; [model] names
    the model [getModel] resolves to. *)
Definition this_prefix : string := "?".

Definition handler (model : nat) : QuickOpenHandler :=
  {| prefix := this_prefix; description := ""; getModel := model |}.

(** [run] of the item made for [handler]. *)
Definition runItem (handler : QuickOpenHandler) (mode : QuickOpenMode)
  : bool * list QuickOpen.Effect :=
  if negb (bool_decide (mode = OPEN)) then (false, [])
  else (false, [QuickOpen.show (Some (prefix handler))]).

(** [onType] of the help handler's model: the items it hands to the
    acceptor. *)
Definition onType (handlerRegistry : QuickOpen.QuickOpenHandlerRegistry)
    (lookFor : string) : list (QuickOpenItem QuickOpen.Effect) :=
  (fun handler =>
     {| item_label := prefix handler;
        item_description := description handler;
        run := runItem handler |})
  <$> filter (fun handler => prefix handler <> this_prefix)
             (QuickOpen.getHandlers handlerRegistry).


End HelpQuickOpenHandler.

(* ===================================================================== *)
(** * src/unnamed/part_000: the earlier revision of the service *)
(* ===================================================================== *)

Module QuickOpenLegacyService.

Import QuickOpenModel.

(** The call [mod.onType(searchValue, ...)] on a handler's model. *)
Inductive Call : Type :=
| ModelOnType (handler : QuickOpenHandler) (searchValue : string).

(** What one call of the model's [onType] leads to: a call on a handler's
    model, or the acceptor given the items made here. *)
Inductive Effect : Type :=
| Forward (call : Call)
| Accept (items : list (QuickOpenItem Call)).

(** [run] of the item made for the handler [item]. *)
Definition runItem (item : QuickOpenHandler) (mode : QuickOpenMode)
  : bool * list Call :=
  if negb (bool_decide (mode = OPEN)) then (false, [])
  else (false, [ModelOnType item ""]).

Definition onType (r : QuickOpenLegacy.QuickOpenHandlerRegistry) (lookFor : string)
  : Effect :=
  match QuickOpenLegacy.getHandlerByText r lookFor with
  | Some handler =>
      let searchValue := Js.substr lookFor (String.length (prefix handler)) in
      Forward (ModelOnType handler searchValue)
  | None =>
      Accept ((fun item =>
                 {| item_label := prefix item;
                    item_description := description item;
                    run := runItem item |})
              <$> QuickOpenLegacy.getHandlers r)
  end.

End QuickOpenLegacyService.

(* ===================================================================== *)
(** * preferences-menu-factory.ts: what the menu shows as chosen *)
(* ===================================================================== *)

Module PreferencesMenuMarks.

Import PreferencesMenu.

(** The icon class of each entry, in item order. *)
Definition itemIcons (m : Menu) : list (option string) :=
  (fun item => iconClass <$> itemCommand m item) <$> items m.

(** The entries that carry the check mark. *)
Definition checkedItems (m : Menu) : list MenuItem :=
  filter (fun item => iconClass <$> itemCommand m item = Some "fa fa-check") (items m).

End PreferencesMenuMarks.

(* ===================================================================== *)
(** * src/unnamed/part_001: [ActiveLineDecorator.applyDecorations] *)
(* ===================================================================== *)

Module ActiveLineDecorations.

Import Decorators.

(** A stack frame with its [source] property; a [DebugProtocol.Source] is
    kept as a string that [DebugUtils.toUri] turns into a URI. *)
Record SourcedFrame : Type := mkSourcedFrame {
  frame_of : StackFrame;
  frame_source : option string
}.

(** [DebugSession], [DebugSessionManager] and [EditorManager] are injected
    and not among the sources.  [stacks] stands for the [stackFrames] of
    the response to [stacks({ threadId, levels: 1 })], [getByUri] for the
    editor of the widget its promise resolves to. *)
Record DebugSession : Type := mkSession {
  stoppedThreadIds : list Z;
  stacks : Z -> list SourcedFrame
}.

Record EditorManager : Type := mkEditorManager {
  all : list TextEditor;
  getByUri : string -> option TextEditor
}.

(** The body of the loop over the stopped threads: the [setDecorations]
    calls that the thread's promises lead to. *)
Definition showThread (toUri : string -> string) (editorManager : EditorManager)
    (session : DebugSession) (threadId : Z)
  : list (TextEditor * list EditorDecoration) :=
  match stacks session threadId with
  | [] => []
  | frame :: _ =>
      match frame_source frame with
      | None => []
      | Some source =>
          match getByUri editorManager (toUri source) with
          | Some editor => [ActiveLineDecorator.doShow editor (frame_of frame)]
          | None => []
          end
      end
  end.

(** The [setDecorations(editor, decorations)] calls of one
    [applyDecorations()], the promises answering in the order they were
    made; [active] is [getActiveDebugSession()]. *)
Definition applyDecorations (toUri : string -> string) (editorManager : EditorManager)
    (active : option DebugSession)
  : list (TextEditor * list EditorDecoration) :=
  ((fun editor => (editor, [])) <$> all editorManager) ++
  match active with
  | None => []
  | Some session =>
      concat (showThread toUri editorManager session <$> stoppedThreadIds session)
  end.

End ActiveLineDecorations.

(* ===================================================================== *)
(** * marker-tree.ts: [resolveChildren] *)
(* ===================================================================== *)

Module MarkerTreeChildren.

Import Markers.

Section ResolveChildren.

Variable labelProvider : LabelProvider.
Variable uriParent : string -> string.
Variable markerManager : MarkerManager.

(** [node.children = children], an assignment to the node object that
    the index does not see. *)
Definition assignChildren (t : MarkerTree) (node : ref) (children : list ref)
  : MarkerTree :=
  match heap t !! node with
  | Some n => withHeap t (<[node := withChildren n children]> (heap t))
  | None => t
  end.

(** The loop [for (const id of this.markerManager.getUris())]. *)
Fixpoint resolveRootChildren (t : MarkerTree) (ids : list string)
  : MarkerTree * list ref :=
  match ids with
  | [] => (t, [])
  | id :: rest =>
      let uri := id in
      let existing := getNode t id in
      let markers := findMarkers markerManager uri in
      let '(t1, node) :=
        match asMarkerInfoNode t existing with
        | Some (e, _) => (t, e)
        | None => createMarkerInfo labelProvider uriParent t id uri
        end in
      let '(t2, children) := getMarkerNodes t1 node markers in
      let t3 := assignChildren t2 node children in
      let t4 := setNumberOfMarkers t3 node (length children) in
      let '(t5, nodes) := resolveRootChildren t4 rest in
      (t5, node :: nodes)
  end.

(** Modelled from the spec: [TreeImpl.resolveChildren(parent)], which a
    parent other than the root is handed to, is not among the sources; it
    gives the children the parent has. *)
Definition resolveChildren (t : MarkerTree) (parent : ref) : MarkerTree * list ref :=
  match heap t !! parent with
  | Some (RootNode _) => resolveRootChildren t (getUris markerManager)
  | Some n => (t, childrenOf n)
  | None => (t, [])
  end.

End ResolveChildren.

(** What [resolveChildren] answers for one URI of the store: a per-file
    node for that URI whose count and children match the store's markers. *)
Definition resolvedFor (markerManager : MarkerManager) (t : MarkerTree)
    (uri : string) (e : ref) : Prop :=
  exists n : MarkerInfoNode,
    heap t !! e = Some (InfoNode n) /\
    info_id n = uri /\
    numberOfMarkers n = length (findMarkers markerManager uri) /\
    length (info_children n) = length (findMarkers markerManager uri).

(** What a run of [resolveChildren] keeps of a heap: every object is
    still there with its id and its shape; the root is untouched; a
    per-file node has the count and as many children as before, or as
    many as the store has markers for it. *)
Definition resolvedOrKept (markerManager : MarkerManager)
    (h h' : list TreeNode) : Prop :=
  forall r n, h !! r = Some n ->
    match n with
    | RootNode _ => h' !! r = Some n
    | InfoNode i =>
        exists i' : MarkerInfoNode,
          h' !! r = Some (InfoNode i') /\
          info_id i' = info_id i /\
          (numberOfMarkers i' = numberOfMarkers i /\
           length (info_children i') = length (info_children i)
           \/
           numberOfMarkers i' = length (findMarkers markerManager (info_id i)) /\
           length (info_children i') = length (findMarkers markerManager (info_id i)))
    | LeafNode l =>
        exists l' : MarkerNode, h' !! r = Some (LeafNode l') /\ node_id l' = node_id l
    end.

(** A marker node with another marker: [existing.marker = marker]. *)
Definition withMarker (l : MarkerNode) (m : Marker) : MarkerNode :=
  {| node_id := node_id l; node_name := node_name l; node_parent := node_parent l;
     node_selected := node_selected l; node_uri := node_uri l; marker := m |}.

End MarkerTreeChildren.

(* ===================================================================== *)
(** * More sample data *)
(* ===================================================================== *)

Module MoreSamples.

Import Samples.

(** The sample registry after the file handler, whose prefix is empty,
    was registered as well; and the service on it. *)
Definition catchAllRegistry : QuickOpen.QuickOpenHandlerRegistry :=
  QuickOpen.step registry (QuickOpen.OpRegisterHandler fileHandler).

Definition catchAllService : QuickOpen.QuickOpenService :=
  {| QuickOpen.currentPrefix := Some ">"; QuickOpen.registry := catchAllRegistry |}.




(** Options that name [fuzzySort] and hold [undefined] for it. *)
Definition undefinedFuzzySort : QuickOpenOptions.Partial :=
  {| QuickOpenOptions.part_prefix := Some (Some ">");
     QuickOpenOptions.part_placeholder := Some (Some "Pick a command");
     QuickOpenOptions.part_fuzzyMatchLabel := Some (Some true);
     QuickOpenOptions.part_fuzzyMatchDetail := None;
     QuickOpenOptions.part_fuzzyMatchDescription := None;
     QuickOpenOptions.part_fuzzySort := Some None;
     QuickOpenOptions.part_skipPrefix := Some (Some false);
     QuickOpenOptions.part_showItemsWithoutHighlight := None;
     QuickOpenOptions.part_selectIndex := None;
     QuickOpenOptions.part_onClose := None |}.

End MoreSamples.

(* ===================================================================== *)
(** * Properties *)
(* ===================================================================== *)

(** ** JavaScript strings and maps *)

Lemma startsWith_app (p rest : string) : Js.startsWith (p +:+ rest) p = true.
Proof.
  induction p as [|c p IH]; simpl; [done|].
  by rewrite Ascii.eqb_refl, IH.
Qed.

Lemma startsWith_substr (text p : string) :
  Js.startsWith text p = true ->
  text = p +:+ Js.substr text (String.length p).
Proof.
  revert text; induction p as [|c p IH]; intros text; simpl.
  - by destruct text.
  - destruct text as [|d text]; [done|].
    intros [Hc Hp]%andb_prop.
    apply Ascii.eqb_eq in Hc as ->.
    change (String d p +:+ ?x) with (String d (p +:+ x)).
    f_equal. by apply IH.
Qed.

Lemma substr_app (p rest : string) : Js.substr (p +:+ rest) (String.length p) = rest.
Proof. induction p as [|c p IH]; simpl; [by destruct rest|done]. Qed.

Lemma eqStr_true (v : Js.Value) (s : string) :
  Js.eqStr v s = true <-> v = Js.VStr s.
Proof.
  destruct v; simpl; try (split; [done|by intros [=]]).
  rewrite String.eqb_eq. split; [by intros ->|by intros [= ->]].
Qed.

Lemma has_elem_of_keys {V} (m : Js.Map V) (k : string) :
  Js.has m k = true <-> k ∈ Js.keys m.
Proof.
  unfold Js.keys. induction m as [|[k' v] m IH]; simpl.
  - split; [done|]. by intros ?%elem_of_nil.
  - rewrite elem_of_cons, orb_true_iff, IH, String.eqb_eq.
    split; (intros [->|?]; [by left|by right]).
Qed.

Lemma keys_set_absent {V} (m : Js.Map V) (k : string) (v : V) :
  Js.has m k = false -> Js.set m k v = m ++ [(k, v)].
Proof.
  induction m as [|[k' v'] m IH]; simpl; [done|].
  intros [Hk Hm]%orb_false_elim. rewrite Hk. f_equal. by apply IH.
Qed.

Lemma keys_delete_sublist {V} (m : Js.Map V) (k : string) :
  sublist (Js.keys (Js.delete m k)) (Js.keys m).
Proof.
  unfold Js.keys. induction m as [|[k' v'] m IH]; simpl; [done|].
  destruct (String.eqb k' k); simpl.
  - by apply sublist_cons.
  - by apply sublist_skip.
Qed.

Lemma keys_delete_NoDup {V} (m : Js.Map V) (k : string) :
  NoDup (Js.keys m) -> NoDup (Js.keys (Js.delete m k)).
Proof. intros Hm. eapply sublist_NoDup; [done|apply keys_delete_sublist]. Qed.

Lemma delete_Forall {V} (P : string * V -> Prop) (m : Js.Map V) (k : string) :
  Forall P m -> Forall P (Js.delete m k).
Proof.
  induction 1 as [|[k' v'] m HP Hm IH]; simpl; [done|].
  destruct (String.eqb k' k); [done|by constructor].
Qed.

(** ** The quick-open registry *)

Section Registry.
Import QuickOpen.

Lemma registry_ok_one_per_prefix (r : QuickOpenHandlerRegistry) :
  registry_ok r -> one_per_prefix r.
Proof.
  intros [Hkeyed Hnodup]. unfold one_per_prefix, getHandlers, Js.values.
  replace (prefix <$> (handlers r).*2) with (Js.keys (handlers r)); [done|].
  unfold Js.keys. rewrite <- list_fmap_compose.
  apply Forall_fmap_ext_1. unfold keyed_by_prefix in Hkeyed.
  eapply Forall_impl; [exact Hkeyed|]. by intros [k h].
Qed.

Lemma runDisposable_ok (d : Disposable) (m : Js.Map QuickOpenHandler) :
  Forall (fun kh => kh.1 = prefix kh.2) m /\ NoDup (Js.keys m) ->
  Forall (fun kh => kh.1 = prefix kh.2) (runDisposable d m) /\
  NoDup (Js.keys (runDisposable d m)).
Proof.
  intros [Hk Hn]. destruct d as [|p]; simpl; [done|].
  split; [by apply delete_Forall|by apply keys_delete_NoDup].
Qed.

Lemma registerHandler_ok (r : QuickOpenHandlerRegistry) (h : QuickOpenHandler) :
  registry_ok r -> registry_ok (registerHandler r h).1.
Proof.
  intros [Hk Hn]. unfold registerHandler, registry_ok, keyed_by_prefix.
  destruct (Js.has (handlers r) (prefix h)) eqn:Hhas; simpl; [done|].
  rewrite keys_set_absent by done. split.
  - apply Forall_app. split; [done|]. by repeat constructor.
  - unfold Js.keys. rewrite fmap_app. simpl.
    apply NoDup_app. split_and!; [done| |apply NoDup_singleton].
    intros k Hin ->%list_elem_of_singleton.
    apply has_elem_of_keys in Hin. congruence.
Qed.

Lemma step_ok (r : QuickOpenHandlerRegistry) (op : Op) :
  registry_ok r -> registry_ok (step r op).
Proof.
  intros Hr. destruct op as [h|h|d|]; simpl.
  - by apply registerHandler_ok.
  - done.
  - by apply runDisposable_ok.
  - unfold dispose, registry_ok, keyed_by_prefix. simpl.
    induction (toDispose r) as [|d ds IH]; simpl; [done|].
    by apply runDisposable_ok.
Qed.

Lemma reachable_ok (r : QuickOpenHandlerRegistry) : reachable r -> registry_ok r.
Proof.
  induction 1 as [|r op _ IH].
  - split; [constructor|apply NoDup_nil_2].
  - by apply step_ok.
Qed.

Lemma firstMatching_Some (hs : list QuickOpenHandler) (text : string) (h : QuickOpenHandler) :
  firstMatching hs text = Some h ->
  h ∈ hs /\ Js.startsWith text (prefix h) = true.
Proof.
  induction hs as [|h' hs IH]; simpl; [done|].
  destruct (Js.startsWith text (prefix h')) eqn:Hs.
  - intros [= ->]. split; [by left|done].
  - intros [Hin Hp]%IH. split; [by right|done].
Qed.

Lemma firstMatching_None (hs : list QuickOpenHandler) (text : string) :
  firstMatching hs text = None <->
  forall h, h ∈ hs -> Js.startsWith text (prefix h) = false.
Proof.
  induction hs as [|h' hs IH]; simpl.
  - split; [|done]. by intros _ h ?%elem_of_nil.
  - destruct (Js.startsWith text (prefix h')) eqn:Hs.
    + split; [done|]. intros H. specialize (H h' ltac:(by left)). congruence.
    + rewrite IH. split.
      * intros H h [->|Hin]%elem_of_cons; auto.
      * intros H h Hin. apply H. by right.
Qed.

End Registry.

Section Dispatch.
Import QuickOpen.

(** C5.  A registry holds at most one handler per prefix; every operation
    keeps it so; and [registerHandler] with a prefix that is already
    registered returns [Disposable.NULL] and leaves the handler map as it
    was (it only logs a warning). *)
Theorem registerHandler_one_per_prefix (r : QuickOpenHandlerRegistry) :
  registry_ok r ->
  one_per_prefix r /\
  (forall op, registry_ok (step r op) /\ one_per_prefix (step r op)) /\
  (forall handler,
      Js.has (handlers r) (prefix handler) = true ->
      (registerHandler r handler).2 = NULL /\
      handlers (registerHandler r handler).1 = handlers r).
Proof.
  intros Hr. split_and!.
  - by apply registry_ok_one_per_prefix.
  - intros op. pose proof (step_ok r op Hr) as Hstep.
    split; [done|by apply registry_ok_one_per_prefix].
  - intros handler Hhas. unfold registerHandler. by rewrite Hhas.
Qed.

(** C1.  When [getHandlerForText] finds a handler and its prefix is the
    service's current prefix, [onType] hands the handler's model the text
    with that prefix taken off, and changes nothing in the service. *)
Theorem onType_forwards_remainder
    (s : QuickOpenService) (lookFor : string) (h : QuickOpenHandler) :
  getHandlerForText (registry s) lookFor = Some h ->
  currentPrefix s = Some (prefix h) ->
  h ∈ getHandlers (registry s) /\
  exists rest,
    lookFor = prefix h +:+ rest /\
    onType s lookFor = (s, ModelOnType h rest).
Proof.
  intros Hfind Hcur.
  pose proof Hfind as [Hin Hpre]%firstMatching_Some.
  split; [done|].
  exists (Js.substr lookFor (String.length (prefix h))). split.
  - by apply startsWith_substr.
  - unfold onType. rewrite Hfind, Hcur.
    by rewrite bool_decide_eq_true_2.
Qed.


(** Without a registered default handler the same call fails: the code
    calls [getModel] on [undefined]. *)
Lemma onType_without_default (s : QuickOpenService) (lookFor : string) :
  getHandlerForText (registry s) lookFor = None ->
  currentPrefix s = Some "" ->
  getDefaultHandler (registry s) = None ->
  onType s lookFor = (s, TypeError).
Proof.
  intros Hnone Hcur Hdef. unfold onType. rewrite Hnone, Hcur, Hdef.
  by rewrite bool_decide_eq_true_2.
Qed.

(** A change of prefix reopens the widget instead of forwarding. *)
Lemma onType_prefix_changed (s : QuickOpenService) (lookFor : string) :
  let p := match getHandlerForText (registry s) lookFor with
           | Some h => prefix h
           | None => ""
           end in
  currentPrefix s <> Some p ->
  onType s lookFor =
    ({| currentPrefix := Some p; registry := registry s |}, show (Some lookFor)).
Proof.
  intros p Hne. unfold onType. fold p.
  rewrite bool_decide_eq_false_2; [done|congruence].
Qed.

End Dispatch.

Section Revisions.

(** C9.  On the same handler map, the earlier revision's
    [getHandlerByText] and the later revision's [getHandlerForText] give
    the same answer for every text. *)
Theorem getHandlerByText_agrees
    (old : QuickOpenLegacy.QuickOpenHandlerRegistry)
    (new : QuickOpen.QuickOpenHandlerRegistry) (text : string) :
  QuickOpenLegacy.handlers old = QuickOpen.handlers new ->
  QuickOpenLegacy.getHandlerByText old text = QuickOpen.getHandlerForText new text.
Proof.
  intros Hsame.
  unfold QuickOpenLegacy.getHandlerByText, QuickOpen.getHandlerForText.
  rewrite Hsame.
  induction (Js.values (QuickOpen.handlers new)) as [|h hs IH]; simpl; [done|].
  by destruct (Js.startsWith text (prefix h)).
Qed.

(** The same registrations, made on both revisions from an empty registry,
    lead to the same handler map. *)
Lemma registerHandler_same_map
    (old : QuickOpenLegacy.QuickOpenHandlerRegistry)
    (new : QuickOpen.QuickOpenHandlerRegistry) (h : QuickOpenHandler) :
  QuickOpenLegacy.handlers old = QuickOpen.handlers new ->
  QuickOpenLegacy.handlers (QuickOpenLegacy.registerHandler old h).1 =
  QuickOpen.handlers (QuickOpen.registerHandler new h).1.
Proof.
  intros Hsame. unfold QuickOpenLegacy.registerHandler, QuickOpen.registerHandler.
  rewrite Hsame. by destruct (Js.has (QuickOpen.handlers new) (prefix h)).
Qed.

End Revisions.

(** ** The Node.js debug-adapter contribution *)

Section ResolveDebugConfiguration.
Import DebugNodeJs.

Lemma get_after_breakpoints (config : gmap string Js.Value) (key : string) :
  key <> "breakpoints" ->
  get (<["breakpoints" := breakpointsValue]> config) key = get config key.
Proof. intros Hne. unfold get. by rewrite lookup_insert_ne. Qed.

(** C4, as the code has it.  [resolveDebugConfiguration] always stores the
    file patterns under [breakpoints]; it throws exactly when
    [config.request] is falsy (absent, but also the empty string, [0],
    [null] or [false]), or [config.request] is ['attach'] and
    [config.processId] is falsy; in every other case it returns that
    configuration. *)
Theorem resolveDebugConfiguration_throws_iff (config : gmap string Js.Value) :
  (resolveDebugConfiguration config).1 = <["breakpoints" := breakpointsValue]> config /\
  (throws (resolveDebugConfiguration config).2 <->
     Js.truthy (get config "request") = false \/
     (get config "request" = Js.VStr "attach" /\
      Js.truthy (get config "processId") = false)) /\
  (~ throws (resolveDebugConfiguration config).2 ->
     (resolveDebugConfiguration config).2 = Returned).
Proof.
  unfold resolveDebugConfiguration, validateAttachConfig.
  rewrite !get_after_breakpoints by done.
  rewrite <- eqStr_true.
  destruct (Js.truthy (get config "request")) eqn:Hreq; simpl.
  - destruct (Js.eqStr (get config "request") "attach") eqn:Hattach; simpl.
    + destruct (Js.truthy (get config "processId")) eqn:Hpid; simpl.
      * split_and!; [done| |done]. split; [by intros [? ?]|].
        by intros [?|[_ ?]].
      * split_and!; [done| |]. { split; [by right|by eexists]. }
        intros []. by eexists.
    + split_and!; [done| |done]. split; [by intros [? ?]|].
      by intros [?|[? _]].
  - split_and!; [done| |]. { split; [by left|by eexists]. }
    intros []. by eexists.
Qed.

End ResolveDebugConfiguration.

(** ** The preferences menu factory *)

Section PreferenceMenu.
Import PreferencesMenu.

Lemma append_inj_r (a x y : string) : a +:+ x = a +:+ y -> x = y.
Proof. induction a as [|c a IH]; simpl; [done|]. intros [= ?]. auto. Qed.

Lemma distinctValues_from (seen values : list string) :
  NoDup seen ->
  let result :=
    foldl (fun seen v => if bool_decide (v ∈ seen) then seen else seen ++ [v])
          seen values in
  NoDup result /\
  (forall v, v ∈ result <-> v ∈ seen \/ v ∈ values) /\
  sublist seen result.
Proof.
  revert seen. induction values as [|v values IH]; intros seen Hseen; simpl.
  - split_and!; [done| |done]. intros v. rewrite elem_of_nil. tauto.
  - case_bool_decide as Hin.
    + destruct (IH seen Hseen) as (Hnd & Hmem & Hsub).
      split_and!; [done| |done].
      intros w. rewrite Hmem, elem_of_cons. split; [tauto|].
      intros [?|[->|?]]; auto.
    + assert (NoDup (seen ++ [v])) as Hseen'.
      { apply NoDup_app. split_and!; [done| |apply NoDup_singleton].
        intros w Hw ->%list_elem_of_singleton. done. }
      destruct (IH _ Hseen') as (Hnd & Hmem & Hsub).
      split_and!; [done| |].
      * intros w. rewrite Hmem, elem_of_app, list_elem_of_singleton, elem_of_cons.
        tauto.
      * etrans; [|exact Hsub]. by apply sublist_inserts_r.
Qed.

Lemma hasCommand_enumMenu id saved property (seen : list string) (v : string) :
  hasCommand (enumMenu id saved property seen) (id +:+ "-" +:+ v) = bool_decide (v ∈ seen).
Proof.
  unfold hasCommand, enumMenu; simpl.
  induction seen as [|w seen IH]; csimpl; [done|].
  rewrite IH. destruct (String.eqb_spec (id +:+ "-" +:+ w) (id +:+ "-" +:+ v)) as [Heq|Hne].
  - apply append_inj_r, append_inj_r in Heq as ->.
    symmetry. apply bool_decide_eq_true_2. by left.
  - simpl. apply bool_decide_ext. rewrite elem_of_cons.
    split; [by right|]. intros [->|?]; [done|done].
Qed.

Lemma addEnumValue_enumMenu id saved property (seen : list string) (v : string) :
  addEnumValue id saved property (Some (enumMenu id saved property seen)) v =
  Some (enumMenu id saved property (if bool_decide (v ∈ seen) then seen else seen ++ [v])).
Proof.
  unfold addEnumValue. simpl. rewrite hasCommand_enumMenu.
  case_bool_decide as Hin; simpl; [done|].
  unfold addCommand. rewrite hasCommand_enumMenu, bool_decide_eq_false_2 by done.
  simpl. unfold addItem, enumMenu; simpl.
  rewrite keys_set_absent.
  - by rewrite !fmap_app.
  - pose proof (hasCommand_enumMenu id saved property seen v) as H.
    rewrite bool_decide_eq_false_2 in H by done. exact H.
Qed.

Lemma foldl_addEnumValue id saved property (values seen : list string) :
  foldl (addEnumValue id saved property) (Some (enumMenu id saved property seen)) values =
  Some (enumMenu id saved property
          (foldl (fun seen v => if bool_decide (v ∈ seen) then seen else seen ++ [v])
                 seen values)).
Proof.
  revert seen. induction values as [|v values IH]; intros seen; [done|].
  cbn [foldl]. by rewrite addEnumValue_enumMenu, IH.
Qed.

Lemma lookupCommand_enumMenu id saved property (values : list string) (v : string) :
  v ∈ values ->
  lookupCommand (enumCommand id saved property <$> values) (id +:+ "-" +:+ v) =
  Some (enumCommand id saved property v).2.
Proof.
  induction values as [|w values IH]; csimpl; [by intros ?%elem_of_nil|].
  intros Hin. destruct (String.eqb_spec (id +:+ "-" +:+ w) (id +:+ "-" +:+ v)) as [Heq|Hne].
  - by apply append_inj_r, append_inj_r in Heq as ->.
  - apply IH. apply elem_of_cons in Hin as [->|?]; done.
Qed.

Lemma itemCommand_enumMenu {B} (f : CommandOptions -> B)
    id saved property (values : list string) :
  (fun item => f <$> itemCommand (enumMenu id saved property values) item)
    <$> items (enumMenu id saved property values) =
  (fun v => Some (f (enumCommand id saved property v).2)) <$> values.
Proof.
  unfold itemCommand, enumMenu; simpl. rewrite <- list_fmap_compose.
  apply list_fmap_ext. intros i v Hv. simpl.
  rewrite lookupCommand_enumMenu; [done|]. by eapply list_elem_of_lookup_2.
Qed.

(** C6.  For a property schema, the factory succeeds and the menu's items
    follow from the schema alone: with [enum], one item per distinct enum
    value, in order of first occurrence, labelled with the value and
    submitting it; without [enum] and with type ['boolean'], the two items
    ['true'] and ['false']; otherwise the single item ['Add Value'], which
    submits the default value when that is truthy and the empty string
    when it is not. *)
Theorem createPreferenceContextMenu_items
    (id : string) (savedPreference : Js.Value) (property : PreferenceProperty) :
  exists menu,
    createPreferenceContextMenu id savedPreference (Some property) = Some menu /\
    match enum property with
    | Some values =>
        itemLabels menu = Some <$> distinctValues values /\
        itemSubmits menu = (fun v => Some (id, Js.VStr v)) <$> distinctValues values /\
        NoDup (distinctValues values) /\
        (forall v, v ∈ distinctValues values <-> v ∈ values)
    | None =>
        if Js.eqStr (type property) "boolean" then
          itemLabels menu = [Some "true"; Some "false"] /\
          itemSubmits menu = [Some (id, Js.VStr "true"); Some (id, Js.VStr "false")]
        else
          itemLabels menu = [Some "Add Value"] /\
          itemSubmits menu =
            [Some (id, if Js.truthy (default_ property)
                       then default_ property else Js.VStr "")]
    end.
Proof.
  unfold createPreferenceContextMenu.
  destruct (enum property) as [values|] eqn:Henum.
  - change {| commands := []; items := [] |}
      with (enumMenu id savedPreference property []).
    rewrite foldl_addEnumValue. eexists. split; [done|].
    fold (distinctValues values).
    destruct (distinctValues_from [] values (NoDup_nil_2 (A:=string))) as (Hnd & Hmem & _).
    fold (distinctValues values) in Hnd, Hmem.
    split_and!.
    + unfold itemLabels. by rewrite itemCommand_enumMenu.
    + unfold itemSubmits. by rewrite itemCommand_enumMenu.
    + done.
    + intros v. rewrite Hmem, elem_of_nil. tauto.
  - assert (Js.truthy (type property) && Js.eqStr (type property) "boolean"
            = Js.eqStr (type property) "boolean") as ->.
    { destruct (type property) as [| |b|n|ty|l|l]; simpl; try done.
      - apply andb_false_r.
      - apply andb_false_r.
      - destruct (String.eqb_spec ty "boolean") as [->|]; [done|].
        apply andb_false_r. }
    destruct (Js.eqStr (type property) "boolean").
    + unfold addCommand, hasCommand; simpl.
      assert ((id +:+ "-true" =? id +:+ "-false")%string = false) as Hne.
      { apply String.eqb_neq. by intros ?%append_inj_r. }
      rewrite Hne. simpl. eexists. split; [done|].
      unfold itemLabels, itemSubmits, itemCommand; simpl.
      rewrite Hne, !String.eqb_refl. done.
    + unfold addCommand, hasCommand; simpl. eexists. split; [done|].
      unfold itemLabels, itemSubmits, itemCommand; simpl.
      rewrite !String.eqb_refl. done.
Qed.

End PreferenceMenu.

(** ** The editor decorators *)

Section ActiveLine.
Import Decorators Decorators.ActiveLineDecorator.

(** C10.  For a frame whose end line and end column, when present, are
    1-based (at least 1), [toRange] gives the 0-based range: start line
    [line - 1]; start column [column - 1] when [endColumn] is present and
    [0] otherwise; end line [endLine - 1] when present and [line - 1]
    otherwise; end column [endColumn - 1] when present and [0]
    otherwise. *)
Theorem toRange_zero_based (frame : StackFrame) :
  (forall l, frame_endLine frame = Some l -> 1 <= l)%Z ->
  (forall c, frame_endColumn frame = Some c -> 1 <= c)%Z ->
  line (start (toRange frame)) = Js.Num (frame_line frame - 1) /\
  character (start (toRange frame)) =
    match frame_endColumn frame with
    | Some _ => Js.Num (frame_column frame - 1)
    | None => Js.Num 0
    end /\
  line (end_ (toRange frame)) =
    match frame_endLine frame with
    | Some endLine => Js.Num (endLine - 1)
    | None => Js.Num (frame_line frame - 1)
    end /\
  character (end_ (toRange frame)) =
    match frame_endColumn frame with
    | Some endColumn => Js.Num (endColumn - 1)
    | None => Js.Num 0
    end.
Proof.
  intros Hline Hcol.
  assert (forall z, (1 <= z)%Z -> (z =? 0)%Z = false) as Hnz
    by (intros z Hz; apply Z.eqb_neq; lia).
  unfold toRange, Js.ifNum; simpl.
  destruct (frame_endLine frame) as [l|]; destruct (frame_endColumn frame) as [c|];
    rewrite ?(Hnz l) by auto; rewrite ?(Hnz c) by auto; done.
Qed.

(** An end column or end line of [0] counts as missing: the test is on
    the number's truthiness. *)
Lemma toRange_zero_end (frame : StackFrame) :
  frame_endLine frame = Some 0%Z ->
  frame_endColumn frame = Some 0%Z ->
  toRange frame =
    Range_create (Position_create (Js.Num (frame_line frame - 1)) (Js.Num 0))
                 (Position_create (Js.Num (frame_line frame - 1)) (Js.Num 0)).
Proof. intros Hl Hc. unfold toRange. by rewrite Hl, Hc. Qed.

End ActiveLine.

Section BreakpointDecorations.
Import Decorators Decorators.BreakpointDecorator.

Variable utils : DebugUtils.
Variable breakpointStorage : BreakpointStorage.
Variable all : list TextEditor.

Lemma decorate_decorates (b : AggregatedBreakpoint) : decorates b (decorate b).
Proof.
  unfold decorates, decorate, isVerified; simpl. split_and!.
  - intros sb Hsb. unfold toRange, lineMinusOne. by rewrite Hsb.
  - by intros (c & -> & ->).
  - intros Hno. destruct (created b) as [c|]; [|done].
    destruct (verified c) eqn:Hv; [|done]. destruct Hno. by exists c.
Qed.

(** C7.  [applyDecorations] makes one [setDecorations] call per editor it
    decorates (the given editor, or every open editor), and the
    decorations of that call match, one to one and in order, the stored
    source breakpoints whose URI is the editor's: each sits at line
    [breakpoint.line - 1], column [0], with the active-breakpoint style
    exactly when the breakpoint has a created response that is verified
    and the inactive style otherwise. *)
Theorem applyDecorations_per_breakpoint (editor : option TextEditor) :
  ActiveBreakpointDecoration <> InactiveBreakpointDecoration /\
  (applyDecorations utils breakpointStorage all editor).*1 =
    match editor with Some e => [e] | None => all end /\
  forall e decorations,
    (e, decorations) ∈ applyDecorations utils breakpointStorage all editor ->
    Forall2 decorates (shownIn utils breakpointStorage e) decorations.
Proof.
  split_and!; [done| |].
  - unfold applyDecorations. rewrite <- list_fmap_compose.
    by rewrite list_fmap_id.
  - intros e decorations Hin. unfold applyDecorations in Hin.
    apply list_elem_of_fmap in Hin as (e' & [= -> ->] & _).
    fold (shownIn utils breakpointStorage e'). apply Forall2_fmap_r, Forall_Forall2_diag, Forall_forall.
    intros b _. apply decorate_decorates.
Qed.

End BreakpointDecorations.

(** ** The breakpoints widget *)

Section BreakpointsList.
Import BreakpointsWidget.

Lemma string_compare_refl (s : string) : String.compare s s = Eq.
Proof.
  induction s as [|c s IH]; simpl; [done|].
  unfold Ascii.compare. by rewrite N.compare_refl.
Qed.

Lemma sort_same_string {A} (toString : A -> string) (l : list A) :
  (forall x y, toString x = toString y) -> Js.sort toString l = l.
Proof.
  intros Hsame. unfold Js.sort. induction l as [|x l IH]; simpl; [done|].
  rewrite IH. destruct l as [|y l]; simpl; [done|].
  rewrite (Hsame y x). unfold String.ltb. by rewrite string_compare_refl.
Qed.

(** C8.  [refreshBreakpoints] makes the widget's list the breakpoints of
    its session when it was constructed with one, and the breakpoints of
    all sessions when it was constructed without; the session it was
    constructed with stays, and one update is requested. *)
Theorem refreshBreakpoints_replaces
    (breakpointManager : BreakpointsManager) (w : DebugBreakpointsWidget) :
  breakpoints (refreshBreakpoints breakpointManager w) =
    match debugSession w with
    | Some session => get breakpointManager (session_sessionId session)
    | None => getAll breakpointManager
    end /\
  debugSession (refreshBreakpoints breakpointManager w) = debugSession w /\
  updates (refreshBreakpoints breakpointManager w) = S (updates w).
Proof.
  unfold refreshBreakpoints; simpl. split_and!; [|done|done].
  by apply sort_same_string.
Qed.

End BreakpointsList.

(** ** The markers tree *)

Section MarkerTreeFacts.
Import Markers.

Variable labelProvider : LabelProvider.
Variable uriParent : string -> string.
Variable markerOptions_kind : string.

Implicit Types (t : MarkerTree) (r c e : ref).

Lemma markerNodeId_inj (pid : string) (i j : nat) :
  markerNodeId pid i = markerNodeId pid j -> i = j.
Proof.
  unfold markerNodeId. intros H%append_inj_r%append_inj_r. by apply (inj pretty).
Qed.

Lemma append_length (a b : string) :
  String.length (a +:+ b) = String.length a + String.length b.
Proof. induction a as [|x a IH]; simpl; [done|]. by rewrite IH. Qed.

Lemma markerNodeId_neq (pid : string) (i : nat) : markerNodeId pid i <> pid.
Proof.
  unfold markerNodeId. intros H%(f_equal String.length).
  rewrite append_length in H. simpl in H. lia.
Qed.

Lemma sameButMarker_refl (n : TreeNode) : sameButMarker n n.
Proof. destruct n; simpl; eauto. Qed.

Lemma keeps_refl (h : list TreeNode) : keeps h h.
Proof. intros r n Hn. exists n. split_and!; [done|done|apply sameButMarker_refl]. Qed.

Lemma keeps_trans (h1 h2 h3 : list TreeNode) :
  keeps h1 h2 -> keeps h2 h3 -> keeps h1 h3.
Proof.
  intros H12 H23 r n Hn.
  destruct (H12 r n Hn) as (n2 & Hn2 & Hid2 & Hsame2).
  destruct (H23 r n2 Hn2) as (n3 & Hn3 & Hid3 & Hsame3).
  exists n3. split_and!; [done|congruence|].
  destruct n as [rn|inf|l]; simpl in *; subst; try done.
  destruct Hsame2 as [l2 ->]. exact Hsame3.
Qed.

Lemma keeps_index_consistent (h h' : list TreeNode) (index : gmap string ref) :
  keeps h h' -> index_consistent h index -> index_consistent h' index.
Proof.
  intros Hk Hc k r Hkr. destruct (Hc k r Hkr) as (n & Hn & Hid).
  destruct (Hk r n Hn) as (n' & Hn' & Hid' & _). exists n'.
  split; [exact Hn'|congruence].
Qed.

Lemma keeps_app (h : list TreeNode) (n : TreeNode) : keeps h (h ++ [n]).
Proof.
  intros r n0 Hn0. exists n0. split_and!; [|done|apply sameButMarker_refl].
  by apply lookup_app_l_Some.
Qed.

Lemma keeps_insert_same_id (h : list TreeNode) (r : ref) (n n' : TreeNode) :
  h !! r = Some n -> nodeId n' = nodeId n -> sameButMarker n n' ->
  keeps h (<[r := n']> h).
Proof.
  intros Hn Hid Hsame r0 n0 Hn0. destruct (decide (r0 = r)) as [->|Hne].
  - exists n'. rewrite list_lookup_insert_eq by (by eapply lookup_lt_Some).
    assert (n0 = n) as -> by congruence. done.
  - exists n0. rewrite list_lookup_insert_ne by done.
    split_and!; [done|done|apply sameButMarker_refl].
Qed.

Lemma keeps_not_marker (h h' : list TreeNode) (r : ref) (n : TreeNode) :
  keeps h h' -> h !! r = Some n -> (forall l, n <> LeafNode l) -> h' !! r = Some n.
Proof.
  intros Hk Hn Hnl. destruct (Hk r n Hn) as (n' & Hn' & _ & Hsame).
  destruct n as [rn|inf|l]; simpl in Hsame; subst; try done. by destruct (Hnl l).
Qed.

(** One call of [createMarkerNode] below a per-file node. *)
Lemma createMarkerNode_spec t (m : Marker) (i : nat) (parent : ref) (p : MarkerInfoNode) :
  index_consistent (heap t) (nodes t) ->
  heap t !! parent = Some (InfoNode p) ->
  exists t' c l,
    createMarkerNode t m i parent = (t', c) /\
    nodes t' = nodes t /\ root t' = root t /\ changes t' = changes t /\
    keeps (heap t) (heap t') /\
    (forall r, r <> c -> heap t' !! r = heap t !! r) /\
    heap t' !! c = Some (LeafNode l) /\
    marker l = m /\ node_id l = markerNodeId (info_id p) i.
Proof.
  intros Hcons Hp. unfold createMarkerNode. rewrite Hp.
  set (fresh := LeafNode _).
  assert (exists l, fresh = LeafNode l /\ marker l = m /\
                    node_id l = markerNodeId (info_id p) i) as (lf & Hfresh & Hm & Hid)
    by (eexists; split; [reflexivity|done]).
  assert (forall t0 : MarkerTree, t0 = withHeap t (heap t ++ [fresh]) ->
    nodes t0 = nodes t /\ root t0 = root t /\ changes t0 = changes t /\
    keeps (heap t) (heap t0) /\
    (forall r, r <> length (heap t) -> heap t0 !! r = heap t !! r) /\
    heap t0 !! length (heap t) = Some (LeafNode lf)) as Halloc.
  { intros t0 ->. simpl. split_and!; try done.
    - apply keeps_app.
    - intros r Hr. destruct (decide (r < length (heap t))) as [Hlt|Hge].
      + by rewrite lookup_app_l.
      + rewrite !lookup_ge_None_2; [done|lia|]. rewrite length_app. simpl. lia.
    - rewrite lookup_app_r by lia. rewrite Nat.sub_diag. by rewrite Hfresh. }
  unfold getNode.
  destruct (nodes t !! (info_id p +:+ "_" +:+ pretty i)) as [existing|] eqn:Hex;
    [destruct (heap t !! existing) as [[rn|inf|l]|] eqn:Hobj|];
    try (eexists _, _, lf;
         destruct (Halloc _ eq_refl) as (? & ? & ? & ? & ? & ?);
         split_and!; [reflexivity|done..]).
  eexists _, existing, _. split_and!; [reflexivity|done|done|done| | | | |].
  - simpl. eapply keeps_insert_same_id; [done|done|]. simpl. eauto.
  - intros r Hr. simpl. by rewrite list_lookup_insert_ne.
  - simpl. rewrite list_lookup_insert_eq by (by eapply lookup_lt_Some). reflexivity.
  - done.
  - simpl. destruct (Hcons _ _ Hex) as (n & Hn & Hnid).
    assert (n = LeafNode l) as -> by congruence. done.
Qed.

(** [getMarkerNodes]: one marker node per marker, in order, each holding
    its marker; nothing but marker nodes changes on the way. *)
Lemma getMarkerNodesFrom_spec (markers : list Marker) :
  forall t (i : nat) (parent : ref) (p : MarkerInfoNode),
  index_consistent (heap t) (nodes t) ->
  heap t !! parent = Some (InfoNode p) ->
  exists t' cs,
    getMarkerNodesFrom t parent markers i = (t', cs) /\
    nodes t' = nodes t /\ root t' = root t /\ changes t' = changes t /\
    keeps (heap t) (heap t') /\
    (forall r, r ∉ cs -> heap t' !! r = heap t !! r) /\
    length cs = length markers /\
    (forall j m, markers !! j = Some m ->
       exists c l, cs !! j = Some c /\ heap t' !! c = Some (LeafNode l) /\
                   marker l = m /\ node_id l = markerNodeId (info_id p) (i + j)).
Proof.
  induction markers as [|m rest IH]; intros t i parent p Hcons Hp.
  - exists t, []. split_and!; try done. apply keeps_refl.
  - destruct (createMarkerNode_spec t m i parent p Hcons Hp)
      as (t1 & c & l & Hcreate & Hnodes1 & Hroot1 & Hch1 & Hkeep1 & Hrest1 & Hc & Hm & Hid).
    assert (index_consistent (heap t1) (nodes t1)) as Hcons1.
    { rewrite Hnodes1. by eapply keeps_index_consistent. }
    assert (heap t1 !! parent = Some (InfoNode p)) as Hp1.
    { by eapply keeps_not_marker. }
    destruct (IH t1 (S i) parent p Hcons1 Hp1)
      as (t2 & cs & Hrec & Hnodes2 & Hroot2 & Hch2 & Hkeep2 & Hrest2 & Hlen & Hres).
    exists t2, (c :: cs). simpl. rewrite Hcreate, Hrec.
    assert (c ∉ cs) as Hfresh.
    { intros (j & Hj)%list_elem_of_lookup_1.
      destruct (lookup_lt_is_Some_2 rest j) as [m' Hm'].
      { rewrite <- Hlen. by eapply lookup_lt_Some. }
      destruct (Hres j m' Hm') as (c' & l' & Hc' & Hobj' & _ & Hid').
      assert (c' = c) as -> by congruence.
      destruct (Hkeep2 _ _ Hc) as (n' & Hn' & Hnid & _).
      assert (n' = LeafNode l') as -> by congruence. simpl in Hnid.
      rewrite Hid, Hid' in Hnid. apply markerNodeId_inj in Hnid. lia. }
    split_and!; try congruence.
    + by eapply keeps_trans.
    + intros r [Hrc Hrcs]%not_elem_of_cons. rewrite Hrest2, Hrest1; done.
    + intros [|j] m' Hm'; simpl in *.
      * injection Hm' as <-. exists c, l. rewrite Hrest2 by done.
        rewrite Nat.add_0_r. done.
      * destruct (Hres j m' Hm') as (c' & l' & ? & ? & ? & Hid').
        exists c', l'. split_and!; try done.
        by replace (i + S j) with (S i + j) by lia.
Qed.

(** The index operations. *)
Lemma addNodeRec_leaf (d : nat) (h : list TreeNode) (index : gmap string ref)
    (c : ref) (l : MarkerNode) :
  h !! c = Some (LeafNode l) ->
  addNodeRec (S d) h index c = <[node_id l := c]> index.
Proof. intros Hc. simpl. by rewrite Hc. Qed.

Lemma addNodeRec_leaves_lookup (d : nat) (h : list TreeNode) (k : string)
    (cs : list ref) :
  forall index : gmap string ref,
  (forall c, c ∈ cs -> exists l, h !! c = Some (LeafNode l) /\ node_id l <> k) ->
  foldl (addNodeRec (S d) h) index cs !! k = index !! k.
Proof.
  induction cs as [|c cs IH]; intros index Hcs; [done|].
  cbn [foldl]. destruct (Hcs c) as (l & Hl & Hne); [by left|].
  rewrite IH by (intros c' Hc'; apply Hcs; by right).
  rewrite (addNodeRec_leaf _ _ _ _ _ Hl). by rewrite lookup_insert_ne.
Qed.

Lemma addNodeRec_leaves_cases (d : nat) (h : list TreeNode) (cs : list ref) :
  forall (index : gmap string ref) (k : string) (r : ref),
  (forall c, c ∈ cs -> exists l, h !! c = Some (LeafNode l)) ->
  foldl (addNodeRec (S d) h) index cs !! k = Some r ->
  index !! k = Some r \/
  (exists l, r ∈ cs /\ h !! r = Some (LeafNode l) /\ node_id l = k).
Proof.
  induction cs as [|c cs IH]; intros index k r Hcs Hk; [by left|].
  cbn [foldl] in Hk. destruct (Hcs c) as (l & Hl); [by left|].
  rewrite (addNodeRec_leaf _ _ _ _ _ Hl) in Hk.
  apply IH in Hk as [Hk|(l' & Hin & Hl' & Hid)].
  - destruct (decide (node_id l = k)) as [<-|Hne].
    + rewrite lookup_insert_eq in Hk. injection Hk as <-.
      right. exists l. split_and!; [by left|done|done].
    + rewrite lookup_insert_ne in Hk by done. by left.
  - right. exists l'. split_and!; [by right|done|done].
  - intros c' Hc'. apply Hcs. by right.
Qed.

Lemma removeNodeRec_subseteq (d : nat) (h : list TreeNode) :
  forall (index : gmap string ref) (r : ref),
  removeNodeRec d h index r ⊆ index.
Proof.
  induction d as [|d IH]; intros index r; simpl; [done|].
  destruct (h !! r) as [n|]; [|done].
  etrans; [apply delete_subseteq|].
  generalize (childrenOf n). intros cs. revert index.
  induction cs as [|c cs IHcs]; intros index; [done|].
  cbn [foldl]. etrans; [apply IHcs|apply IH].
Qed.

Lemma removeNodeRec_forgets (d : nat) (h : list TreeNode)
    (index : gmap string ref) (r : ref) (n : TreeNode) :
  h !! r = Some n -> removeNodeRec (S d) h index r !! nodeId n = None.
Proof. intros Hr. simpl. rewrite Hr. apply lookup_delete_eq. Qed.

Lemma addChild_spec t (p e : ref) (rn : MarkerRootNode) :
  heap t !! p = Some (RootNode rn) ->
  exists rn',
    heap (addChild t p e) !! p = Some (RootNode rn') /\
    e ∈ root_children rn' /\ root_id rn' = root_id rn /\
    (forall r, r <> p -> heap (addChild t p e) !! r = heap t !! r) /\
    nodes (addChild t p e) = nodes t /\
    root (addChild t p e) = root t /\
    changes (addChild t p e) = changes t.
Proof.
  intros Hp. unfold addChild. rewrite Hp. simpl.
  case_bool_decide as Hin.
  - exists rn. by split_and!.
  - exists {| root_visible := root_visible rn; root_id := root_id rn;
              root_name := root_name rn; root_kind := root_kind rn;
              root_children := root_children rn ++ [e] |}.
    simpl. split_and!; try done.
    + by rewrite list_lookup_insert_eq by (by eapply lookup_lt_Some).
    + apply elem_of_app. right. by left.
    + intros r Hr. by rewrite list_lookup_insert_ne.
Qed.

Lemma index_consistent_insert (h : list TreeNode) (index : gmap string ref)
    (r : ref) (n n' : TreeNode) :
  h !! r = Some n -> nodeId n' = nodeId n ->
  index_consistent h index -> index_consistent (<[r := n']> h) index.
Proof.
  intros Hr Hid Hcons k r0 Hk. destruct (Hcons k r0 Hk) as (n0 & Hn0 & Hid0).
  destruct (decide (r0 = r)) as [->|Hne].
  - exists n'. rewrite list_lookup_insert_eq by (by eapply lookup_lt_Some).
    split; [done|]. congruence.
  - exists n0. by rewrite list_lookup_insert_ne.
Qed.

#[local] Arguments addNodeRec : simpl never.
#[local] Arguments removeNodeRec : simpl never.

Lemma setNumberOfMarkers_info t e (n : MarkerInfoNode) (count : nat) :
  heap t !! e = Some (InfoNode n) ->
  setNumberOfMarkers t e count =
    withHeap t (<[e := InfoNode (withCount n count)]> (heap t)).
Proof. intros He. unfold setNumberOfMarkers. by rewrite He. Qed.

Lemma setChildren_info t e (n : MarkerInfoNode) (cs : list ref) :
  heap t !! e = Some (InfoNode n) ->
  setChildren t e cs =
    let h := <[e := InfoNode (withInfoChildren n cs)]> (heap t) in
    {| heap := h;
       nodes := addNodeRec 3 h (removeNodeRec 3 (heap t) (nodes t) e) e;
       root := root t; changes := changes t |}.
Proof. intros He. unfold setChildren. by rewrite He. Qed.

Lemma addNodeRec_info (d : nat) (h : list TreeNode) (index : gmap string ref)
    e (n : MarkerInfoNode) :
  h !! e = Some (InfoNode n) ->
  addNodeRec (S d) h index e =
    foldl (addNodeRec d h) (<[info_id n := e]> index) (info_children n).
Proof. intros He. unfold addNodeRec at 1. fold addNodeRec. by rewrite He. Qed.

(** The second half of [refreshMarkerInfo], from [addChild] on, for a
    per-file node [e] that is in the heap. *)
Lemma refresh_from_addChild t (e : ref) (n0 : MarkerInfoNode) (rn : MarkerRootNode)
    (markers : list Marker) :
  index_consistent (heap t) (nodes t) ->
  info_under_root t ->
  heap t !! e = Some (InfoNode n0) ->
  info_parent n0 = root t ->
  heap t !! root t = Some (RootNode rn) ->
  exists t3 cs (n : MarkerInfoNode),
    getMarkerNodes (addChild t (root t) e) e markers = (t3, cs) /\
    let t5 := setChildren (setNumberOfMarkers t3 e (length markers)) e cs in
    tree_ok t5 /\
    getNode t5 (info_id n0) = Some e /\
    heap t5 !! e = Some (InfoNode n) /\
    info_id n = info_id n0 /\
    info_parent n = info_parent n0 /\
    e ∈ rootChildren t5 /\
    numberOfMarkers n = length markers /\
    length (info_children n) = length markers /\
    forall i m, markers !! i = Some m ->
      exists c l, info_children n !! i = Some c /\
                  heap t5 !! c = Some (LeafNode l) /\
                  marker l = m /\ node_id l = markerNodeId (info_id n0) i.
Proof.
  intros Hcons Hunder He Hparent Hroot.
  assert (e <> root t) as Hne by (intros ->; congruence).
  destruct (addChild_spec t (root t) e rn Hroot)
    as (rn2 & Hroot2 & Hin2 & Hid2 & Hrest2 & Hnodes2 & Hr2 & _).
  set (t2 := addChild t (root t) e) in *.
  assert (heap t2 !! e = Some (InfoNode n0)) as He2 by (by rewrite Hrest2).
  assert (index_consistent (heap t2) (nodes t2)) as Hcons2.
  { rewrite Hnodes2. intros k r Hk. destruct (Hcons k r Hk) as (n & Hn & Hid).
    destruct (decide (r = root t)) as [->|Hr].
    - exists (RootNode rn2). split; [done|].
      assert (n = RootNode rn) as -> by congruence. simpl in *. congruence.
    - exists n. by rewrite Hrest2. }
  destruct (getMarkerNodesFrom_spec markers t2 0 e n0 Hcons2 He2)
    as (t3 & cs & Hget & Hnodes3 & Hr3 & _ & Hkeep3 & Hrest3 & Hlen & Hres).
  assert (heap t3 !! e = Some (InfoNode n0)) as He3.
  { by eapply keeps_not_marker. }
  assert (heap t3 !! root t = Some (RootNode rn2)) as Hroot3.
  { by eapply keeps_not_marker. }
  assert (e < length (heap t3)) as Hlt by (by eapply lookup_lt_Some).
  set (n5 := withInfoChildren (withCount n0 (length markers)) cs).
  exists t3, cs, n5. split; [exact Hget|].
  rewrite (setNumberOfMarkers_info t3 e n0) by done.
  rewrite (setChildren_info _ e (withCount n0 (length markers)))
    by (cbn [heap withHeap]; by rewrite list_lookup_insert_eq).
  cbn [heap nodes root changes withHeap]. fold n5.
  rewrite list_insert_insert_eq.
  set (h5 := <[e := InfoNode n5]> (heap t3)).
  assert (h5 !! e = Some (InfoNode n5)) as He5
    by (unfold h5; by rewrite list_lookup_insert_eq).
  assert (forall r, r <> e -> h5 !! r = heap t3 !! r) as Hrest5
    by (intros r Hr; unfold h5; by rewrite list_lookup_insert_ne).
  assert (forall i m, markers !! i = Some m ->
            exists c l, cs !! i = Some c /\ h5 !! c = Some (LeafNode l) /\
                        marker l = m /\ node_id l = markerNodeId (info_id n0) i) as Hleaves.
  { intros i m Hm. destruct (Hres i m Hm) as (c & l & Hc & Hobj & Hmk & Hid).
    exists c, l. split_and!; try done.
    rewrite Hrest5; [done|]. intros ->. congruence. }
  assert (forall c, c ∈ cs -> exists l, h5 !! c = Some (LeafNode l)) as Hallleaves.
  { intros c (i & Hi)%list_elem_of_lookup_1.
    destruct (lookup_lt_is_Some_2 markers i) as [m Hm].
    { rewrite <- Hlen. by eapply lookup_lt_Some. }
    destruct (Hleaves i m Hm) as (c' & l & Hc' & Hobj & _).
    assert (c' = c) as -> by congruence. by exists l. }
  assert (index_consistent h5 (nodes t3)) as Hcons5.
  { unfold h5. eapply index_consistent_insert; [exact He3|done|].
    rewrite Hnodes3. by eapply keeps_index_consistent. }
  cbv zeta. cbn [heap nodes root changes].
  split_and!; [|
    |exact He5|done|done| |done|exact Hlen|exact Hleaves].
  - rewrite (addNodeRec_info _ _ _ _ _ He5).
    cbn [info_children info_id n5 withInfoChildren withCount].
    unfold tree_ok, info_under_root, root_is_root. cbn [heap nodes root].
    split_and!.
    + intros k r Hk.
      apply addNodeRec_leaves_cases in Hk as [Hk|(l & _ & Hl & Hid)]; [|by eauto|done].
      destruct (decide (info_id n0 = k)) as [<-|Hk'].
      * rewrite lookup_insert_eq in Hk. injection Hk as <-. by eexists.
      * rewrite lookup_insert_ne in Hk by done. apply Hcons5.
        eapply lookup_weaken; [exact Hk|apply removeNodeRec_subseteq].
    + intros k r n Hk Hr. change (h5 !! r = Some (InfoNode n)) in Hr.
      apply addNodeRec_leaves_cases in Hk as [Hk|(l & _ & Hl & Hid)];
        [|congruence|done].
      destruct (decide (r = e)) as [->|Hre].
      { assert (n = n5) as -> by congruence. by rewrite Hr3, Hr2. }
      destruct (decide (info_id n0 = k)) as [<-|Hk'].
      { rewrite lookup_insert_eq in Hk. congruence. }
      rewrite lookup_insert_ne in Hk by done.
      eapply lookup_weaken in Hk; [|apply removeNodeRec_subseteq].
      cbn [nodes withHeap] in Hk. rewrite Hnodes3, Hnodes2 in Hk.
      rewrite Hrest5 in Hr by done.
      destruct (Hcons k r Hk) as (nold & Hnold & _).
      assert (r <> root t) as Hrr by (intros ->; congruence).
      assert (heap t2 !! r = Some nold) as Hnold2 by (by rewrite Hrest2).
      destruct (Hkeep3 _ _ Hnold2) as (n' & Hn' & _ & Hsame).
      assert (n' = InfoNode n) as -> by congruence.
      destruct nold as [rn0|inf|l0]; simpl in Hsame.
      * done.
      * injection Hsame as ->. rewrite Hr3, Hr2. by eapply Hunder.
      * by destruct Hsame.
    + exists rn2. rewrite Hr3, Hr2. by rewrite Hrest5.
  - unfold getNode. cbn [nodes].
    rewrite (addNodeRec_info _ _ _ _ _ He5). cbn [info_children info_id n5 withInfoChildren withCount].
    rewrite addNodeRec_leaves_lookup.
    + apply lookup_insert_eq.
    + intros c (i & Hi)%list_elem_of_lookup_1.
      destruct (lookup_lt_is_Some_2 markers i) as [m Hm].
      { rewrite <- Hlen. by eapply lookup_lt_Some. }
      destruct (Hleaves i m Hm) as (c' & l & Hc' & Hobj & _ & Hid).
      assert (c' = c) as -> by congruence.
      exists l. split; [done|]. rewrite Hid. apply markerNodeId_neq.
  - unfold rootChildren. cbn [heap root]. rewrite Hr3, Hr2.
    rewrite Hrest5 by done. by rewrite Hroot3.
Qed.

Lemma index_consistent_info (h : list TreeNode) (index : gmap string ref)
    (k : string) e (n : MarkerInfoNode) :
  index_consistent h index -> index !! k = Some e -> h !! e = Some (InfoNode n) ->
  info_id n = k.
Proof.
  intros Hcons Hk He. destruct (Hcons _ _ Hk) as (n' & Hn' & Hid').
  assert (n' = InfoNode n) as -> by congruence. done.
Qed.

Lemma asMarkerInfoNode_Some t (existing : option ref) e (n : MarkerInfoNode) :
  asMarkerInfoNode t existing = Some (e, n) <->
  existing = Some e /\ heap t !! e = Some (InfoNode n).
Proof.
  unfold asMarkerInfoNode. destruct existing as [e'|].
  - destruct (heap t !! e') as [[rn|inf|l]|] eqn:He'; split;
      try (by intros [= <- <-]); try done;
      intros [[= <-] Hn]; congruence.
  - split; [done|]. by intros [? _].
Qed.

Lemma refreshMarkerInfo_spec (markerManager : MarkerManager)
    (t : MarkerTree) (uri : string) :
  tree_ok t ->
  tree_ok (refreshMarkerInfo labelProvider uriParent markerManager t uri) /\
  refreshed t (refreshMarkerInfo labelProvider uriParent markerManager t uri) uri
            (findMarkers markerManager uri).
Proof.
  intros Hok. pose proof Hok as (Hcons & Hunder & (rn & Hroot)).
  unfold refreshMarkerInfo, refreshed.
  destruct (findMarkers markerManager uri) as [|m0 ms] eqn:Hmarkers.
  - cbn [length Nat.leb].
    destruct (asMarkerInfoNode t (getNode t uri)) as [[e n]|] eqn:Hex.
    + apply asMarkerInfoNode_Some in Hex as [Hget He].
      assert (info_parent n = root t) as Hparent by (by eapply Hunder).
      assert (info_id n = uri) as Hid by (by eapply index_consistent_info).
      assert (e <> root t) as Hne by (intros ->; congruence).
      rewrite Hparent. unfold removeChild. rewrite Hroot.
      set (h1 := <[root t := _]> (heap t)).
      assert (h1 !! e = Some (InfoNode n)) as He1
        by (unfold h1; by rewrite list_lookup_insert_ne).
      assert (exists rn1, h1 !! root t = Some (RootNode rn1) /\
                          e ∉ root_children rn1) as (rn1 & Hroot1 & Hnotin).
      { eexists. unfold h1.
        rewrite list_lookup_insert_eq by (by eapply lookup_lt_Some).
        split; [reflexivity|]. cbn [root_children childrenOf].
        intros [Hfalse _]%list_elem_of_filter. by apply Hfalse. }
      assert (getNode (fireChanged (removeNode (withHeap t h1) e)) uri = None) as Hgone.
      { unfold getNode, fireChanged, removeNode. cbn [nodes heap withHeap withNodes].
        rewrite <- Hid. by apply (removeNodeRec_forgets 2 h1 _ e (InfoNode n)). }
      split; [|split].
      * unfold tree_ok, info_under_root, root_is_root, fireChanged, removeNode.
        cbn [heap nodes root withHeap withNodes]. split_and!.
        -- intros k r Hk.
           eapply lookup_weaken in Hk; [|apply removeNodeRec_subseteq].
           revert k r Hk. fold (index_consistent h1 (nodes t)).
           unfold h1. by eapply index_consistent_insert.
        -- intros k r n' Hk Hr.
           eapply lookup_weaken in Hk; [|apply removeNodeRec_subseteq].
           assert (r <> root t) as Hrr by (intros ->; congruence).
           unfold h1 in Hr. rewrite list_lookup_insert_ne in Hr by done.
           by eapply Hunder.
        -- by exists rn1.
      * intros e' n'. by rewrite Hgone.
      * intros e' n' Hget' He'. split; [done|].
        assert (e' = e) as -> by congruence.
        unfold rootChildren. cbn [heap root fireChanged removeNode withNodes withHeap].
        by rewrite Hroot1.
    + split; [done|]. split.
      * intros e n Hget He.
        assert (asMarkerInfoNode t (getNode t uri) = Some (e, n)) as Hsome
          by (by apply asMarkerInfoNode_Some).
        congruence.
      * intros e n Hget He.
        assert (asMarkerInfoNode t (getNode t uri) = Some (e, n)) as Hsome
          by (by apply asMarkerInfoNode_Some).
        congruence.
  - cbn [length Nat.leb].
    destruct (asMarkerInfoNode t (getNode t uri)) as [[e n0]|] eqn:Hex.
    + apply asMarkerInfoNode_Some in Hex as [Hget He].
      assert (info_parent n0 = root t) as Hparent by (by eapply Hunder).
      assert (info_id n0 = uri) as Hid by (by eapply index_consistent_info).
      destruct (refresh_from_addChild t e n0 rn (m0 :: ms) Hcons Hunder He Hparent Hroot)
        as (t3 & cs & n & Hnodes & Hpost).
      rewrite Hparent, Hnodes. cbv zeta in Hpost. rewrite Hid in Hpost.
      destruct Hpost as (Hok5 & H1 & H2 & H3 & _ & H5 & H6 & H7 & H8).
      split; [done|]. exists e, n. by split_and!.
    + cbn [createMarkerInfo].
      set (nf := {| info_children := []; info_expanded := true; info_uri := uri;
                    info_id := uri; info_name := getName labelProvider uri;
                    info_icon := getIcon labelProvider uri;
                    info_description := getLongName labelProvider (uriParent uri);
                    info_parent := root t; info_selected := false;
                    numberOfMarkers := 0 |}).
      set (t1 := withHeap t (heap t ++ [InfoNode nf])).
      assert (index_consistent (heap t1) (nodes t1)) as Hcons1.
      { eapply keeps_index_consistent; [|exact Hcons]. apply keeps_app. }
      assert (info_under_root t1) as Hunder1.
      { intros k r n Hk Hr. unfold t1 in Hk, Hr. cbn [heap nodes withHeap] in Hk, Hr.
        destruct (Hcons k r Hk) as (nold & Hnold & _).
        rewrite (lookup_app_l_Some _ _ _ _ Hnold) in Hr.
        assert (nold = InfoNode n) as -> by congruence. by eapply Hunder. }
      assert (heap t1 !! length (heap t) = Some (InfoNode nf)) as He1.
      { unfold t1. cbn [heap withHeap]. rewrite lookup_app_r by lia.
        by rewrite Nat.sub_diag. }
      assert (heap t1 !! root t1 = Some (RootNode rn)) as Hroot1.
      { unfold t1. cbn [heap root withHeap]. by apply lookup_app_l_Some. }
      destruct (refresh_from_addChild t1 _ nf rn (m0 :: ms) Hcons1 Hunder1 He1 eq_refl Hroot1)
        as (t3 & cs & n & Hnodes & Hpost).
      change (root t1) with (root t) in Hnodes. rewrite Hnodes.
      cbv zeta in Hpost. change (info_id nf) with uri in Hpost.
      destruct Hpost as (Hok5 & H1 & H2 & H3 & _ & H5 & H6 & H7 & H8).
      split; [done|]. exists (length (heap t)), n. by split_and!.
Qed.

(** As long as the per-file nodes under the root are the ones the index
    holds, a refresh for a URI without markers leaves no per-file node for
    that URI under the root. *)
Lemma refreshMarkerInfo_removes_indexed (markerManager : MarkerManager)
    (t : MarkerTree) (uri : string) :
  tree_ok t -> children_indexed t ->
  findMarkers markerManager uri = [] ->
  forall e (n : MarkerInfoNode),
    e ∈ rootChildren (refreshMarkerInfo labelProvider uriParent markerManager t uri) ->
    heap (refreshMarkerInfo labelProvider uriParent markerManager t uri) !! e
      = Some (InfoNode n) ->
    info_id n <> uri.
Proof.
  intros (Hcons & Hunder & (rn & Hroot)) Hindexed Hmarkers e n.
  unfold refreshMarkerInfo. rewrite Hmarkers. cbn [length Nat.leb].
  destruct (asMarkerInfoNode t (getNode t uri)) as [[e0 n0]|] eqn:Hex.
  - apply asMarkerInfoNode_Some in Hex as [Hget He0].
    assert (info_parent n0 = root t) as Hparent by (by eapply Hunder).
    assert (e0 <> root t) as Hne by (intros ->; congruence).
    rewrite Hparent. unfold removeChild, rootChildren. rewrite Hroot.
    cbn [heap root fireChanged removeNode withNodes withHeap].
    rewrite list_lookup_insert_eq by (by eapply lookup_lt_Some).
    cbn [withChildren childrenOf root_children].
    intros [Hee0 Hin]%list_elem_of_filter He Hid.
    assert (e <> root t) as Her.
    { intros ->. rewrite list_lookup_insert_eq in He by (by eapply lookup_lt_Some).
      done. }
    rewrite list_lookup_insert_ne in He by done.
    assert (getNode t (info_id n) = Some e) as Hgete.
    { apply Hindexed; [|done]. unfold rootChildren. by rewrite Hroot. }
    rewrite Hid in Hgete. congruence.
  - intros Hin He Hid.
    assert (asMarkerInfoNode t (getNode t uri) = Some (e, n)) as Hsome.
    { apply asMarkerInfoNode_Some. split; [|done]. rewrite <- Hid. by apply Hindexed. }
    congruence.
Qed.

(** Consistency holds for every tree the constructor and refreshes reach. *)
Lemma construct_ok : tree_ok (construct markerOptions_kind).
Proof.
  unfold construct, tree_ok, index_consistent, info_under_root, root_is_root.
  cbn [heap nodes root]. split_and!.
  - intros k r [<- <-]%lookup_singleton_Some. by eexists.
  - intros k r n [<- <-]%lookup_singleton_Some. done.
  - by eexists.
Qed.

Lemma reachable_tree_ok (t : MarkerTree) :
  reachable labelProvider uriParent markerOptions_kind t -> tree_ok t.
Proof.
  induction 1 as [|t markerManager uri _ IH]; [apply construct_ok|].
  by apply refreshMarkerInfo_spec.
Qed.

(** X18.  What [refreshMarkerInfo(uri)] establishes on a consistent tree.
    When the store has no markers for the URI, the tree's lookup finds no
    per-file node for it any more, and the per-file node that the lookup
    found before the call is no longer a child of the root.  Otherwise the
    lookup finds a per-file node for the URI that is a child of the root,
    whose [numberOfMarkers] is the number of the store's markers and whose
    children are marker nodes, one per marker and in the store's order. *)
Lemma refreshMarkerInfo_node (markerManager : MarkerManager)
    (t : MarkerTree) (uri : string) :
  tree_ok t ->
  let t' := refreshMarkerInfo labelProvider uriParent markerManager t uri in
  let markers := findMarkers markerManager uri in
  match markers with
  | [] =>
      (forall e (n : MarkerInfoNode),
         getNode t' uri = Some e -> heap t' !! e <> Some (InfoNode n)) /\
      (forall e (n : MarkerInfoNode),
         getNode t uri = Some e -> heap t !! e = Some (InfoNode n) ->
         getNode t' uri = None /\ e ∉ rootChildren t')
  | _ :: _ =>
      exists e (n : MarkerInfoNode),
        getNode t' uri = Some e /\
        heap t' !! e = Some (InfoNode n) /\
        info_id n = uri /\
        e ∈ rootChildren t' /\
        numberOfMarkers n = length markers /\
        length (info_children n) = length markers /\
        forall i m, markers !! i = Some m ->
          exists c l, info_children n !! i = Some c /\
                      heap t' !! c = Some (LeafNode l) /\
                      marker l = m /\
                      node_id l = uri +:+ "_" +:+ pretty i
  end.
Proof. intros Hok. exact (proj2 (refreshMarkerInfo_spec markerManager t uri Hok)). Qed.

End MarkerTreeFacts.

(** ** The theorems at sample inputs *)

Section AtSamples.
Import Samples.

Lemma onType_forwards_remainder_witness :
  QuickOpen.getHandlerForText (QuickOpen.registry commandService) ">save"
    = Some commandHandler /\
  QuickOpen.currentPrefix commandService = Some (prefix commandHandler) /\
  (commandHandler ∈ QuickOpen.getHandlers (QuickOpen.registry commandService) /\
   exists rest,
     ">save" = prefix commandHandler +:+ rest /\
     QuickOpen.onType commandService ">save"
       = (commandService, QuickOpen.ModelOnType commandHandler rest)).
Proof.
  split; [reflexivity|]. split; [reflexivity|].
  apply (onType_forwards_remainder commandService ">save" commandHandler);
    reflexivity.
Defined.



Lemma registry_sample_ok : QuickOpen.registry_ok registry.
Proof.
  apply reachable_ok. unfold registry.
  repeat apply QuickOpen.reachable_step. apply QuickOpen.reachable_empty.
Qed.

Lemma registerHandler_one_per_prefix_witness :
  QuickOpen.one_per_prefix registry /\
  (forall op, QuickOpen.registry_ok (QuickOpen.step registry op) /\
              QuickOpen.one_per_prefix (QuickOpen.step registry op)) /\
  (forall handler,
      Js.has (QuickOpen.handlers registry) (prefix handler) = true ->
      (QuickOpen.registerHandler registry handler).2 = NULL /\
      QuickOpen.handlers (QuickOpen.registerHandler registry handler).1
        = QuickOpen.handlers registry).
Proof. apply (registerHandler_one_per_prefix registry), registry_sample_ok. Defined.

Lemma getHandlerByText_agrees_witness :
  QuickOpenLegacy.getHandlerByText legacyRegistry ">save"
    = QuickOpen.getHandlerForText registry ">save".
Proof. apply (getHandlerByText_agrees legacyRegistry registry ">save"). reflexivity. Defined.

Lemma toRange_zero_based_witness :
  Decorators.line (Decorators.start (Decorators.ActiveLineDecorator.toRange frame))
    = Js.Num 9 /\
  Decorators.character (Decorators.start (Decorators.ActiveLineDecorator.toRange frame))
    = Js.Num 4 /\
  Decorators.line (Decorators.end_ (Decorators.ActiveLineDecorator.toRange frame))
    = Js.Num 11 /\
  Decorators.character (Decorators.end_ (Decorators.ActiveLineDecorator.toRange frame))
    = Js.Num 8.
Proof.
  apply (toRange_zero_based frame).
  - intros l [= <-]. lia.
  - intros c [= <-]. lia.
Defined.

(** C4 as worded, with "absent" meaning that reading the property gives
    [undefined], fails on the configuration the contribution itself
    offers: its [processId] is the empty string, which is present, and the
    call throws. *)
Lemma resolveDebugConfiguration_empty_processId :
  ~ (DebugNodeJs.throws (DebugNodeJs.resolveDebugConfiguration DebugNodeJs.attachByPid).2 <->
       DebugNodeJs.absent DebugNodeJs.attachByPid "request" \/
       (DebugNodeJs.get DebugNodeJs.attachByPid "request" = Js.VStr "attach" /\
        DebugNodeJs.absent DebugNodeJs.attachByPid "processId")).
Proof.
  intros [Hthrows _].
  assert (DebugNodeJs.throws
            (DebugNodeJs.resolveDebugConfiguration DebugNodeJs.attachByPid).2) as H.
  { exists "PID is not provided.". reflexivity. }
  apply Hthrows in H as [H|[_ H]]; vm_compute in H; discriminate.
Qed.

(** The definitions run: a few calls with their results. *)
Example onType_first_call_reopens :
  QuickOpen.onType
    {| QuickOpen.currentPrefix := None; QuickOpen.registry := registry |} ">save"
  = ({| QuickOpen.currentPrefix := Some ">"; QuickOpen.registry := registry |},
     QuickOpen.show (Some ">save")).
Proof. reflexivity. Qed.

Example registerHandler_twice :
  QuickOpen.registerHandler registry helpHandler
  = ({| QuickOpen.handlers := QuickOpen.handlers registry;
        QuickOpen.toDispose := QuickOpen.toDispose registry;
        QuickOpen.defaultHandler := QuickOpen.defaultHandler registry;
        QuickOpen.warnings := ["A handler with name ? is already registered."] |},
     NULL).
Proof. reflexivity. Qed.

Example menu_for_enum :
  PreferencesMenu.itemLabels
    <$> PreferencesMenu.createPreferenceContextMenu "editor.autoSave" Js.VUndefined
          (Some autoSave)
  = Some [Some "on"; Some "off"].
Proof. reflexivity. Qed.

Example menu_for_boolean :
  PreferencesMenu.itemSubmits
    <$> PreferencesMenu.createPreferenceContextMenu "editor.minimap" (Js.VStr "false")
          (Some minimap)
  = Some [Some ("editor.minimap", Js.VStr "true");
          Some ("editor.minimap", Js.VStr "false")].
Proof. reflexivity. Qed.

Example menu_for_zero_default :
  PreferencesMenu.itemSubmits
    <$> PreferencesMenu.createPreferenceContextMenu "editor.tabSize" Js.VUndefined
          (Some tabSize)
  = Some [Some ("editor.tabSize", Js.VStr "")].
Proof. reflexivity. Qed.

Example decorations_of_all_editors :
  Decorators.BreakpointDecorator.applyDecorations utils storage [editorA; editorB] None
  = [ (editorA,
       [ {| Decorators.range :=
              Decorators.Range_create
                (Decorators.Position_create (Js.Num 2) (Js.Num 0))
                (Decorators.Position_create (Js.Num 2) (Js.Num 0));
            Decorators.options := Decorators.ActiveBreakpointDecoration |};
         {| Decorators.range :=
              Decorators.Range_create
                (Decorators.Position_create (Js.Num 11) (Js.Num 0))
                (Decorators.Position_create (Js.Num 11) (Js.Num 0));
            Decorators.options := Decorators.InactiveBreakpointDecoration |} ]);
      (editorB,
       [ {| Decorators.range :=
              Decorators.Range_create
                (Decorators.Position_create (Js.Num 6) (Js.Num 0))
                (Decorators.Position_create (Js.Num 6) (Js.Num 0));
            Decorators.options := Decorators.InactiveBreakpointDecoration |} ]) ].
Proof. reflexivity. Qed.

Example refresh_of_session_widget :
  BreakpointsWidget.breakpoints
    (BreakpointsWidget.refreshBreakpoints manager
       (BreakpointsWidget.construct
          (Some {| BreakpointsWidget.session_sessionId := "session-1" |})))
  = [verifiedAt "file:///a.ts" 3].
Proof. reflexivity. Qed.

Example refresh_of_dialog_widget :
  BreakpointsWidget.breakpoints
    (BreakpointsWidget.refreshBreakpoints manager (BreakpointsWidget.construct None))
  = stored.
Proof. reflexivity. Qed.

Example sort_orders_strings :
  Js.sort (fun s : string => s) ["b"; "a10"; "a9"; "a"] = ["a"; "a10"; "a9"; "b"].
Proof. reflexivity. Qed.

(** The general statement about [refreshMarkerInfo], at the first refresh
    of the sample run. *)
Lemma refreshMarkerInfo_node_witness :
  exists e (n : Markers.MarkerInfoNode),
    Markers.getNode tree1 uriA0 = Some e /\
    Markers.heap tree1 !! e = Some (Markers.InfoNode n) /\
    Markers.info_id n = uriA0 /\
    e ∈ Markers.rootChildren tree1 /\
    Markers.numberOfMarkers n = 1 /\
    length (Markers.info_children n) = 1 /\
    forall i m, [markerOf uriA0] !! i = Some m ->
      exists c l, Markers.info_children n !! i = Some c /\
                  Markers.heap tree1 !! c = Some (Markers.LeafNode l) /\
                  Markers.marker l = m /\
                  Markers.node_id l = uriA0 +:+ "_" +:+ pretty i.
Proof.
  apply (refreshMarkerInfo_node labels parentOf storeA0 tree0 uriA0).
  apply construct_ok.
Defined.

(** C3, where the code falls short.  A marker node's id is its parent's id
    followed by [_] and its position, so the first marker node of
    [file:///a] has the id that the per-file node of [file:///a_0] has.
    Once the markers of [file:///a] have been shown, the lookup for
    [file:///a_0] finds that marker node; when the markers of
    [file:///a_0] then go away, [refreshMarkerInfo] removes nothing, and
    the per-file node of [file:///a_0] stays under the root with its old
    count.  Every tree of the run is one the constructor and refreshes
    reach. *)
Theorem refreshMarkerInfo_id_collision :
  Markers.reachable labels parentOf "problem" tree3 /\
  Markers.findMarkers storeA uriA0 = [] /\
  (exists l, Markers.getNode tree2 uriA0 = Some 4 /\
             Markers.heap tree2 !! 4 = Some (Markers.LeafNode l)) /\
  exists (n : Markers.MarkerInfoNode),
    1 ∈ Markers.rootChildren tree3 /\
    Markers.heap tree3 !! 1 = Some (Markers.InfoNode n) /\
    Markers.info_id n = uriA0 /\
    Markers.numberOfMarkers n = 1.
Proof.
  split_and!.
  - unfold tree3, tree2, tree1, tree0.
    repeat apply Markers.reachable_refresh. apply Markers.reachable_construct.
  - reflexivity.
  - eexists. split; vm_compute; reflexivity.
  - eexists. split_and!.
    + vm_compute. by left.
    + vm_compute. reflexivity.
    + reflexivity.
    + reflexivity.
Qed.

End AtSamples.

(** ** More on the quick-open registry and its service *)

Section RegistryLookup.
Import QuickOpen.

Lemma firstMatching_split (hs : list QuickOpenHandler) (text : string)
    (h : QuickOpenHandler) :
  firstMatching hs text = Some h <->
  exists before after,
    hs = before ++ h :: after /\
    Forall (fun h' => Js.startsWith text (prefix h') = false) before /\
    Js.startsWith text (prefix h) = true.
Proof.
  induction hs as [|h' hs IH]; simpl.
  - split; [done|]. intros (b & a & Heq & _). by destruct b.
  - destruct (Js.startsWith text (prefix h')) eqn:Hs.
    + split.
      * intros [= ->]. by exists [], hs.
      * intros (b & a & Heq & Hb & Hh). destruct b as [|b0 b]; simpl in Heq.
        -- by injection Heq as -> _.
        -- injection Heq as -> _. inversion Hb; congruence.
    + rewrite IH. split.
      * intros (b & a & -> & Hb & Hh). exists (h' :: b), a.
        split_and!; [done|by constructor|done].
      * intros (b & a & Heq & Hb & Hh). destruct b as [|b0 b]; simpl in Heq.
        -- injection Heq as -> _. congruence.
        -- injection Heq as -> ->. exists b, a. by inversion Hb; subst.
Qed.

Lemma firstMatching_app (hs : list QuickOpenHandler) (h : QuickOpenHandler)
    (text : string) :
  firstMatching (hs ++ [h]) text =
    match firstMatching hs text with
    | Some h0 => Some h0
    | None => if Js.startsWith text (prefix h) then Some h else None
    end.
Proof.
  induction hs as [|h' hs IH]; simpl; [done|].
  by destruct (Js.startsWith text (prefix h')).
Qed.

Lemma delete_app_absent {V} (m : Js.Map V) (k : string) (v : V) :
  Js.has m k = false -> Js.delete (m ++ [(k, v)]) k = m.
Proof.
  induction m as [|[k' v'] m IH]; simpl.
  - intros _. by rewrite String.eqb_refl.
  - intros [Hk Hm]%orb_false_elim. rewrite Hk. f_equal. by apply IH.
Qed.

Lemma has_delete_NoDup {V} (m : Js.Map V) (k : string) :
  NoDup (Js.keys m) -> Js.has (Js.delete m k) k = false.
Proof.
  unfold Js.keys. induction m as [|[k' v'] m IH]; simpl; [done|].
  intros [Hnotin Hnd]%NoDup_cons.
  destruct (String.eqb k' k) eqn:Hk.
  - apply String.eqb_eq in Hk as ->.
    apply not_true_is_false. intros Hhas%has_elem_of_keys. done.
  - simpl. rewrite Hk. simpl. by apply IH.
Qed.

Lemma elem_of_delete_ne {V} (m : Js.Map V) (k k' : string) (v : V) :
  (k', v) ∈ m -> k' <> k -> (k', v) ∈ Js.delete m k.
Proof.
  induction m as [|[k0 v0] m IH]; simpl; [done|].
  intros [[= <- <-]|Hin]%elem_of_cons Hne.
  - destruct (String.eqb k' k) eqn:Hk; [by apply String.eqb_eq in Hk|by left].
  - destruct (String.eqb k0 k); [done|]. right. by apply IH.
Qed.

Lemma elem_of_delete_inv {V} (m : Js.Map V) (k : string) (e : string * V) :
  e ∈ Js.delete m k -> e ∈ m.
Proof.
  induction m as [|[k0 v0] m IH]; simpl; [done|].
  destruct (String.eqb k0 k); [by right|].
  intros [->|Hin]%elem_of_cons; [by left|right; by apply IH].
Qed.

(** X1.  [getHandlerForText] answers with the handler that was registered
    first among those whose prefix starts the text: every handler before
    it in registration order has a prefix that does not start the text.
    It answers [undefined] exactly when no registered prefix starts the
    text. *)
Theorem getHandlerForText_first_registered
    (r : QuickOpenHandlerRegistry) (text : string) :
  (forall h,
     getHandlerForText r text = Some h <->
     exists before after,
       getHandlers r = before ++ h :: after /\
       Forall (fun h' => Js.startsWith text (prefix h') = false) before /\
       Js.startsWith text (prefix h) = true) /\
  (getHandlerForText r text = None <->
   forall h, h ∈ getHandlers r -> Js.startsWith text (prefix h) = false).
Proof.
  split.
  - intros h. apply firstMatching_split.
  - apply firstMatching_None.
Qed.

(** X2.  Once a handler with the empty prefix is registered, every text
    has a registered handler: [onType] never reaches the default-handler
    branch, so it never fails for want of a default handler, and whatever
    it forwards to is a registered handler. *)
Theorem empty_prefix_handler_catches_all
    (s : QuickOpenService) (h : QuickOpenHandler) (text : string) :
  h ∈ getHandlers (registry s) ->
  prefix h = "" ->
  exists h',
    getHandlerForText (registry s) text = Some h' /\
    h' ∈ getHandlers (registry s) /\
    (onType s text).2 <> TypeError /\
    forall d v, (onType s text).2 = ModelOnType d v ->
      d = h' /\ v = Js.substr text (String.length (prefix h')).
Proof.
  intros Hin Hp.
  destruct (getHandlerForText (registry s) text) as [h'|] eqn:Hfind.
  - exists h'. pose proof Hfind as [Hin' _]%firstMatching_Some.
    split_and!; [done|done| |]; unfold onType; rewrite Hfind;
      destruct (negb _); simpl; try done.
    + by intros d v [= <- <-].
  - exfalso. unfold getHandlerForText in Hfind.
    rewrite firstMatching_None in Hfind.
    specialize (Hfind h Hin). rewrite Hp in Hfind. by destruct text.
Qed.

(** X3.  Calling [dispose] on the disposable that [registerHandler]
    returned puts the handler map back as it was before the registration:
    a new handler is taken out again, and for a prefix that was taken the
    disposable is [Disposable.NULL] and the earlier handler stays.  Every
    text then finds the handler it found before. *)
Theorem registerHandler_then_dispose
    (r : QuickOpenHandlerRegistry) (handler : QuickOpenHandler) :
  runDisposable (registerHandler r handler).2
                (handlers (registerHandler r handler).1) = handlers r /\
  forall text,
    firstMatching
      (Js.values (runDisposable (registerHandler r handler).2
                                (handlers (registerHandler r handler).1))) text
    = getHandlerForText r text.
Proof.
  assert (runDisposable (registerHandler r handler).2
            (handlers (registerHandler r handler).1) = handlers r) as Heq.
  { unfold registerHandler.
    destruct (Js.has (handlers r) (prefix handler)) eqn:Hhas; simpl; [done|].
    rewrite keys_set_absent by done. by apply delete_app_absent. }
  split; [exact Heq|]. intros text. by rewrite Heq.
Qed.

(** X4.  Registering a handler never changes the answer for a text that
    already had a handler; a text that had none gets the new handler when
    the new prefix was free and starts the text, and stays without a
    handler otherwise. *)
Theorem registerHandler_keeps_answers
    (r : QuickOpenHandlerRegistry) (handler : QuickOpenHandler) (text : string) :
  getHandlerForText (registerHandler r handler).1 text =
    match getHandlerForText r text with
    | Some h0 => Some h0
    | None =>
        if negb (Js.has (handlers r) (prefix handler))
           && Js.startsWith text (prefix handler)
        then Some handler else None
    end.
Proof.
  unfold getHandlerForText, registerHandler.
  destruct (Js.has (handlers r) (prefix handler)) eqn:Hhas; simpl.
  - by destruct (firstMatching _ _).
  - rewrite keys_set_absent by done. unfold Js.values.
    rewrite fmap_app. simpl. apply firstMatching_app.
Qed.

(** X5.  [onType] settles after one call: whatever the service's current
    prefix was, the call leaves it equal to the prefix of the text's
    handler (the empty string when there is none) and leaves the registry
    alone; a second call with the same text does not reopen the widget
    and changes nothing, it forwards to the handler, or to the default
    handler, or fails when there is neither. *)
Theorem onType_settles (s : QuickOpenService) (lookFor : string) :
  let s1 := (onType s lookFor).1 in
  registry s1 = registry s /\
  currentPrefix s1 =
    Some (match getHandlerForText (registry s) lookFor with
          | Some h => prefix h
          | None => ""
          end) /\
  (onType s1 lookFor).1 = s1 /\
  (onType s1 lookFor).2 =
    match getHandlerForText (registry s) lookFor with
    | Some h => ModelOnType h (Js.substr lookFor (String.length (prefix h)))
    | None =>
        match getDefaultHandler (registry s) with
        | Some defHandler => ModelOnType defHandler lookFor
        | None => TypeError
        end
    end.
Proof.
  set (p := match getHandlerForText (registry s) lookFor with
            | Some h => prefix h
            | None => ""
            end).
  assert (forall s0, registry s0 = registry s -> currentPrefix s0 = Some p ->
            onType s0 lookFor =
              (s0, match getHandlerForText (registry s) lookFor with
                   | Some h => ModelOnType h (Js.substr lookFor (String.length (prefix h)))
                   | None =>
                       match getDefaultHandler (registry s) with
                       | Some defHandler => ModelOnType defHandler lookFor
                       | None => TypeError
                       end
                   end)) as Hsettled.
  { intros s0 Hreg Hcur. unfold onType. rewrite Hreg, Hcur. fold p.
    rewrite bool_decide_eq_true_2 by done. simpl.
    destruct (getHandlerForText (registry s) lookFor); [done|].
    by destruct (getDefaultHandler (registry s)). }
  intros s1.
  assert (registry s1 = registry s /\ currentPrefix s1 = Some p) as [Hreg Hcur].
  { unfold s1, onType. fold p. case_bool_decide as Hc; simpl.
    - destruct (getHandlerForText (registry s) lookFor); [done|].
      by destruct (getDefaultHandler (registry s)).
    - done. }
  split_and!; [done|done| |]; by rewrite (Hsettled s1 Hreg Hcur).
Qed.

(** X6.  [registerDefaultHandler] makes the handler the default one and
    leaves the handler map alone, but the disposable it returns deletes
    the default handler's prefix from the handler map: disposing it
    unregisters whatever handler was registered under that prefix and
    keeps every other handler; the default handler itself is not in that
    map, and the disposable does not reset it. *)
Theorem registerDefaultHandler_disposable
    (r : QuickOpenHandlerRegistry) (handler : QuickOpenHandler) :
  registry_ok r ->
  let r1 := (registerDefaultHandler r handler).1 in
  let after := runDisposable (registerDefaultHandler r handler).2 (handlers r1) in
  getDefaultHandler r1 = Some handler /\
  handlers r1 = handlers r /\
  Js.has after (prefix handler) = false /\
  (forall h, h ∈ Js.values after -> h ∈ getHandlers r /\ prefix h <> prefix handler) /\
  (forall h, h ∈ getHandlers r -> prefix h <> prefix handler -> h ∈ Js.values after).
Proof.
  intros [Hkeyed Hnodup]. simpl. split_and!; [done|done| | |].
  - by apply has_delete_NoDup.
  - intros h ((k & h0) & -> & Hin)%list_elem_of_fmap. simpl.
    assert ((k, h0) ∈ handlers r) as Hin0.
    { by eapply elem_of_delete_inv. }
    split.
    + unfold getHandlers, Js.values. apply list_elem_of_fmap. by exists (k, h0).
    + unfold keyed_by_prefix in Hkeyed. rewrite Forall_forall in Hkeyed.
      pose proof (Hkeyed _ Hin0) as Hk. simpl in Hk. intros Heq.
      assert (Js.has (Js.delete (handlers r) (prefix handler)) (prefix handler) = true) as Hhas.
      { apply has_elem_of_keys. unfold Js.keys. apply list_elem_of_fmap.
        exists (k, h0). split; [simpl; congruence|done]. }
      rewrite has_delete_NoDup in Hhas by done. done.
  - intros h ((k & h0) & -> & Hin)%list_elem_of_fmap Hne. simpl in *.
    unfold keyed_by_prefix in Hkeyed. rewrite Forall_forall in Hkeyed.
    pose proof (Hkeyed _ Hin) as Hk. simpl in Hk.
    unfold Js.values. apply list_elem_of_fmap. exists (k, h0). split; [done|].
    apply elem_of_delete_ne; [done|congruence].
Qed.

End RegistryLookup.

Section Help.
Import QuickOpen QuickOpenModel.

Lemma filter_ne_length {A} `{EqDecision A} (l : list A) (x : A) :
  NoDup l -> x ∈ l -> S (length (filter (fun y => y <> x) l)) = length l.
Proof.
  induction l as [|y l IH]; [by intros _ ?%elem_of_nil|].
  intros [Hy Hl]%NoDup_cons Hin. rewrite filter_cons.
  destruct (decide (y <> x)) as [Hne|Heq]; simpl.
  - f_equal. apply IH; [done|]. by apply elem_of_cons in Hin as [->|?].
  - apply dec_stable in Heq as ->. f_equal. f_equal.
    clear IH Hin Hl. induction l as [|z l IH]; [done|].
    apply not_elem_of_cons in Hy as [Hne Hy]. rewrite filter_cons.
    destruct (decide (z <> x)); [simpl; f_equal; by apply IH|done].
Qed.

Lemma filter_fmap_prefix (hs : list QuickOpenHandler) (p : string) :
  prefix <$> filter (fun h => prefix h <> p) hs =
  filter (fun q => q <> p) (prefix <$> hs).
Proof.
  induction hs as [|h hs IH]; [done|]. csimpl. rewrite !filter_cons.
  destruct (decide (prefix h <> p)); csimpl; by rewrite IH.
Qed.

(** X7.  The help handler's model answers every text with one item per
    registered handler other than the help handler itself, in
    registration order: the item shows the handler's prefix and
    description; run in [OPEN] mode it reopens the widget on that prefix,
    in any other mode it does nothing, and it always returns [false].  No
    item carries the help prefix. *)
Theorem help_items (r : QuickOpenHandlerRegistry) (lookFor : string) :
  Forall2
    (fun h item =>
       item_label item = prefix h /\
       item_description item = description h /\
       run item OPEN = (false, [show (Some (prefix h))]) /\
       forall mode, mode <> OPEN -> run item mode = (false, []))
    (filter (fun h => prefix h <> "?") (getHandlers r))
    (HelpQuickOpenHandler.onType r lookFor) /\
  "?" ∉ item_label <$> HelpQuickOpenHandler.onType r lookFor.
Proof.
  unfold HelpQuickOpenHandler.onType, HelpQuickOpenHandler.this_prefix. split.
  - apply Forall2_fmap_r, Forall_Forall2_diag, Forall_forall.
    intros h _. simpl. split_and!; [done|done|done|].
    intros mode Hmode. unfold HelpQuickOpenHandler.runItem.
    by rewrite bool_decide_eq_false_2.
  - rewrite <- list_fmap_compose.
    intros (h & Hp & Hin%list_elem_of_filter)%list_elem_of_fmap.
    simpl in Hp. by destruct Hin.
Qed.

(** X8.  In a registry that holds the help handler, the help list has
    exactly one item less than there are registered handlers, and its
    labels are the registered prefixes without ['?'], none of them twice. *)
Theorem help_lists_all_but_itself
    (r : QuickOpenHandlerRegistry) (model : nat) (lookFor : string) :
  registry_ok r ->
  HelpQuickOpenHandler.handler model ∈ getHandlers r ->
  S (length (HelpQuickOpenHandler.onType r lookFor)) = length (getHandlers r) /\
  NoDup (item_label <$> HelpQuickOpenHandler.onType r lookFor) /\
  forall p, p ∈ item_label <$> HelpQuickOpenHandler.onType r lookFor <->
            p ∈ prefix <$> getHandlers r /\ p <> "?".
Proof.
  intros Hok Hin. apply registry_ok_one_per_prefix in Hok. unfold one_per_prefix in Hok.
  assert (item_label <$> HelpQuickOpenHandler.onType r lookFor =
          filter (fun q => q <> "?") (prefix <$> getHandlers r)) as Hlabels.
  { unfold HelpQuickOpenHandler.onType, HelpQuickOpenHandler.this_prefix.
    rewrite <- list_fmap_compose. rewrite <- filter_fmap_prefix. done. }
  split_and!.
  - rewrite <- (length_fmap item_label), Hlabels, <- (length_fmap prefix (getHandlers r)).
    apply filter_ne_length; [done|].
    apply list_elem_of_fmap. by exists (HelpQuickOpenHandler.handler model).
  - rewrite Hlabels. by apply NoDup_filter.
  - intros p. rewrite Hlabels, list_elem_of_filter. tauto.
Qed.

End Help.

Section ShowOptions.
Import QuickOpenOptions.

(** X9.  [show1] always opens with the help placeholder and with
    [skipPrefix] on, whatever the caller's options hold for these two
    properties.  Every other property is what the caller's options hold
    for it when they have the property, even when what they hold is
    [undefined], and the default of [defaultOptions] when they do not
    have it; calling [show1] with [undefined] is calling it with [{}]. *)
Theorem show1_overrides (customOpts : option Partial) :
  let given := default noOptions customOpts in
  res_placeholder (show1 customOpts)
    = Some "Type ? to get help on the actions you can take from here" /\
  res_skipPrefix (show1 customOpts) = Some true /\
  show1 customOpts = show1 (Some (withoutOverridden given)) /\
  res_prefix (show1 customOpts) = assigned (Some "") (part_prefix given) /\
  res_fuzzyMatchLabel (show1 customOpts)
    = assigned (Some false) (part_fuzzyMatchLabel given) /\
  res_fuzzyMatchDetail (show1 customOpts)
    = assigned (Some false) (part_fuzzyMatchDetail given) /\
  res_fuzzyMatchDescription (show1 customOpts)
    = assigned (Some false) (part_fuzzyMatchDescription given) /\
  res_fuzzySort (show1 customOpts) = assigned (Some false) (part_fuzzySort given) /\
  res_showItemsWithoutHighlight (show1 customOpts)
    = assigned (Some false) (part_showItemsWithoutHighlight given) /\
  res_onClose (show1 customOpts) = assigned (Some NoOp) (part_onClose given) /\
  res_selectIndex (show1 customOpts)
    = assigned (Some (fun _ => (-1)%Z)) (part_selectIndex given).
Proof.
  destruct customOpts as [customOpts|]; cbv zeta; split_and!; reflexivity.
Qed.

End ShowOptions.

Section LegacyRegistry.
Import QuickOpenLegacy.

Lemma getHandler'_has (m : Js.Map QuickOpenHandler) (k : string) :
  Js.has m k = false <-> getHandler' m k = None.
Proof.
  induction m as [|[k' h'] m IH]; simpl; [done|].
  destruct (String.eqb k' k); simpl; [split; done|exact IH].
Qed.

Lemma getHandler'_app (m : Js.Map QuickOpenHandler) (k id : string)
    (h : QuickOpenHandler) :
  getHandler' (m ++ [(k, h)]) id =
    match getHandler' m id with
    | Some h0 => Some h0
    | None => if String.eqb k id then Some h else None
    end.
Proof.
  induction m as [|[k' h'] m IH]; simpl; [done|].
  by destruct (String.eqb k' id).
Qed.

(** X10.  In the earlier revision, [getHandler(id)] after
    [registerHandler(handler)] gives what it gave before for every id
    that had a handler, the new handler for the new handler's prefix when
    that prefix was free, and still nothing for any other id: the first
    registration under a prefix is the one that is found, and a
    registration never hides or replaces another handler. *)
Theorem getHandler_after_registerHandler
    (r : QuickOpenHandlerRegistry) (handler : QuickOpenHandler) (id : string) :
  getHandler (registerHandler r handler).1 id =
    match getHandler r id with
    | Some h0 => Some h0
    | None => if String.eqb (prefix handler) id then Some handler else None
    end.
Proof.
  unfold getHandler, registerHandler.
  destruct (Js.has (handlers r) (prefix handler)) eqn:Hhas; simpl.
  - destruct (getHandler' (handlers r) id) eqn:Hget; [done|].
    destruct (String.eqb_spec (prefix handler) id) as [<-|]; [|done].
    apply getHandler'_has in Hget. congruence.
  - rewrite keys_set_absent by done. apply getHandler'_app.
Qed.

End LegacyRegistry.

Section LegacyService.
Import QuickOpenModel.

(** X11.  On the same handler map the two revisions of the service
    forward alike whenever a registered handler's prefix starts the text:
    the earlier [onType] calls that handler's model with the text after
    the prefix, and so does the later one once its current prefix is that
    handler's.  They part when no prefix starts the text: the earlier
    revision then hands the acceptor one item per registered handler, in
    registration order, whose [run] in [OPEN] mode calls the handler's
    model with the empty text, where the later revision turns to the
    default handler. *)
Theorem legacy_onType_agrees
    (old : QuickOpenLegacy.QuickOpenHandlerRegistry)
    (s : QuickOpen.QuickOpenService) (lookFor : string) :
  QuickOpenLegacy.handlers old = QuickOpen.handlers (QuickOpen.registry s) ->
  (forall h,
     QuickOpen.getHandlerForText (QuickOpen.registry s) lookFor = Some h ->
     QuickOpenLegacyService.onType old lookFor =
       QuickOpenLegacyService.Forward
         (QuickOpenLegacyService.ModelOnType h
            (Js.substr lookFor (String.length (prefix h)))) /\
     (QuickOpen.currentPrefix s = Some (prefix h) ->
      QuickOpen.onType s lookFor =
        (s, QuickOpen.ModelOnType h (Js.substr lookFor (String.length (prefix h)))))) /\
  (QuickOpen.getHandlerForText (QuickOpen.registry s) lookFor = None ->
   exists items,
     QuickOpenLegacyService.onType old lookFor = QuickOpenLegacyService.Accept items /\
     Forall2
       (fun h item =>
          item_label item = prefix h /\
          item_description item = description h /\
          run item OPEN = (false, [QuickOpenLegacyService.ModelOnType h ""]) /\
          forall mode, mode <> OPEN -> run item mode = (false, []))
       (QuickOpen.getHandlers (QuickOpen.registry s)) items).
Proof.
  intros Hsame.
  assert (QuickOpenLegacy.getHandlerByText old lookFor =
          QuickOpen.getHandlerForText (QuickOpen.registry s) lookFor) as Hfind.
  { unfold QuickOpenLegacy.getHandlerByText, QuickOpen.getHandlerForText.
    rewrite Hsame.
    induction (Js.values (QuickOpen.handlers (QuickOpen.registry s))) as [|h hs IH];
      simpl; [done|].
    by destruct (Js.startsWith lookFor (prefix h)). }
  unfold QuickOpenLegacyService.onType. rewrite Hfind. split.
  - intros h Hh. rewrite Hh. split; [done|].
    intros Hcur. unfold QuickOpen.onType. rewrite Hh, Hcur.
    by rewrite bool_decide_eq_true_2.
  - intros Hnone. rewrite Hnone. eexists. split; [done|].
    unfold QuickOpenLegacy.getHandlers, QuickOpen.getHandlers. rewrite Hsame.
    apply Forall2_fmap_r, Forall_Forall2_diag, Forall_forall.
    intros h _. simpl. split_and!; [done|done|done|].
    intros mode Hmode. unfold QuickOpenLegacyService.runItem.
    by rewrite bool_decide_eq_false_2.
Qed.

End LegacyService.

Section ResolveAgain.
Import DebugNodeJs.

(** X12.  Resolving a configuration that was already resolved changes
    nothing: the configuration stays as the first call left it, and the
    second call ends as the first did (it returns, or throws with the
    same message). *)
Theorem resolveDebugConfiguration_idempotent (config : gmap string Js.Value) :
  resolveDebugConfiguration (resolveDebugConfiguration config).1
    = resolveDebugConfiguration config.
Proof.
  assert ((resolveDebugConfiguration config).1
          = <["breakpoints" := breakpointsValue]> config) as ->.
  { unfold resolveDebugConfiguration.
    destruct (negb _); [done|]. by destruct (Js.eqStr _ _). }
  unfold resolveDebugConfiguration. by rewrite insert_insert_eq.
Qed.

End ResolveAgain.

Section CheckMarks.
Import PreferencesMenu PreferencesMenuMarks.

Lemma filter_none {A} (P : A -> Prop) `{forall x, Decision (P x)} (l : list A) :
  (forall x, x ∈ l -> ~ P x) -> filter P l = [].
Proof.
  induction l as [|y l IH]; [done|]. intros Hl. rewrite filter_cons.
  destruct (decide (P y)) as [Hy|_].
  - destruct (Hl y); [by left|done].
  - apply IH. intros x Hx. apply Hl. by right.
Qed.

Lemma filter_at_most_one {A} (P : A -> Prop) `{forall x, Decision (P x)}
    (l : list A) (c : A) :
  NoDup l -> (forall x, x ∈ l -> P x -> x = c) -> length (filter P l) <= 1.
Proof.
  induction l as [|y l IH]; [simpl; lia|].
  intros [Hy Hl]%NoDup_cons Hc. rewrite filter_cons.
  destruct (decide (P y)) as [HPy|_].
  - rewrite filter_none; [simpl; lia|].
    intros x Hx HPx.
    assert (x = c) as -> by (apply Hc; [by right|done]).
    assert (y = c) as -> by (apply Hc; [by left|done]). done.
  - apply IH; [done|]. intros x Hx. apply Hc. by right.
Qed.

Lemma check_checked (b : bool) : check b = "fa fa-check" <-> b = true.
Proof. by destruct b. Qed.

#[local] Instance enumItem_inj (id : string) : Inj (=) (=) (enumItem id).
Proof. intros v w [= Heq]. by apply append_inj_r, append_inj_r in Heq. Qed.

(** X13.  The menu shows at most one entry as chosen.  This holds for
    every boolean and every free-value preference; for a preference with
    an [enum] it holds unless the saved preference is the empty string,
    which marks the entry for [''] and, being falsy, the default's entry
    as well. *)
Theorem createPreferenceContextMenu_one_check
    (id : string) (savedPreference : Js.Value) (property : PreferenceProperty)
    (menu : Menu) :
  createPreferenceContextMenu id savedPreference (Some property) = Some menu ->
  enum property = None \/ savedPreference <> Js.VStr "" ->
  length (checkedItems menu) <= 1.
Proof.
  unfold createPreferenceContextMenu.
  destruct (enum property) as [values|] eqn:Henum.
  - intros Hmenu [?|Hsaved]; [done|].
    change {| commands := []; items := [] |}
      with (enumMenu id savedPreference property []) in Hmenu.
    rewrite foldl_addEnumValue in Hmenu. fold (distinctValues values) in Hmenu.
    injection Hmenu as <-.
    destruct (distinctValues_from [] values (NoDup_nil_2 (A:=string))) as (Hnd & _ & _).
    fold (distinctValues values) in Hnd.
    set (chosen :=
           match savedPreference with
           | Js.VStr s => s
           | _ => match default_ property with Js.VStr d => d | _ => "" end
           end).
    unfold checkedItems.
    apply (filter_at_most_one _ _ (enumItem id chosen)).
    + cbn [items enumMenu]. by apply (NoDup_fmap_2 _).
    + cbn [items enumMenu]. intros item (v & -> & Hv)%list_elem_of_fmap.
      unfold itemCommand. cbn [commands enumMenu command enumItem].
      rewrite lookupCommand_enumMenu by done. cbn.
      intros [= Hcheck]. apply check_checked in Hcheck.
      assert (v = chosen) as ->; [|done].
      apply orb_prop in Hcheck as [Hs|[Hf Hd]%andb_prop].
      * apply eqStr_true in Hs. unfold chosen. by rewrite Hs.
      * apply eqStr_true in Hd. unfold chosen. rewrite Hd.
        destruct savedPreference as [| |b|n|s|l|l]; try done.
        simpl in Hf. apply negb_true_iff, negb_false_iff, String.eqb_eq in Hf.
        by subst s.
  - intros Hmenu _.
    destruct (Js.truthy (type property) && Js.eqStr (type property) "boolean").
    + unfold addCommand, hasCommand in Hmenu; simpl in Hmenu.
      assert ((id +:+ "-true" =? id +:+ "-false")%string = false) as Hne.
      { apply String.eqb_neq. by intros ?%append_inj_r. }
      rewrite Hne in Hmenu. simpl in Hmenu. injection Hmenu as <-.
      unfold checkedItems, itemCommand, addItem. cbn [items commands app].
      rewrite !filter_cons, filter_nil. cbn [command lookupCommand].
      rewrite Hne, !String.eqb_refl. cbn [fmap option_fmap option_map iconClass].
      destruct (decide _) as [[= Hc%check_checked]|_];
        destruct (decide _) as [[= Hc0%check_checked]|_]; try (simpl; lia).
      exfalso.
      apply orb_prop in Hc as [Hc|[Hf Hc]%andb_prop];
        apply orb_prop in Hc0 as [Hc0|[Hf0 Hc0]%andb_prop].
      * apply eqStr_true in Hc, Hc0. congruence.
      * apply eqStr_true in Hc. by rewrite Hc in Hf0.
      * apply eqStr_true in Hc0. by rewrite Hc0 in Hf.
      * destruct (default_ property) as [| |b'|n'|s'|l'|l']; simpl in *; try done.
        by destruct b'.
    + unfold addCommand, hasCommand in Hmenu; simpl in Hmenu. injection Hmenu as <-.
      unfold checkedItems, addItem. cbn [items app]. rewrite filter_cons, filter_nil.
      destruct (decide _); simpl; lia.
Qed.

End CheckMarks.

Section ActiveLineCalls.
Import Decorators ActiveLineDecorations.

Lemma showThread_length (toUri : string -> string) (editorManager : EditorManager)
    (session : DebugSession) (threadId : Z) :
  length (showThread toUri editorManager session threadId) <= 1.
Proof.
  unfold showThread. destruct (stacks session threadId) as [|sf ?]; [simpl; lia|].
  destruct (frame_source sf); [|simpl; lia].
  destruct (getByUri _ _); simpl; lia.
Qed.

Lemma showThread_call (toUri : string -> string) (editorManager : EditorManager)
    (session : DebugSession) (threadId : Z) (call : TextEditor * list EditorDecoration) :
  call ∈ showThread toUri editorManager session threadId <->
  exists sf source,
    head (stacks session threadId) = Some sf /\
    frame_source sf = Some source /\
    getByUri editorManager (toUri source) = Some call.1 /\
    call.2 = [ {| range := ActiveLineDecorator.toRange (frame_of sf);
                  options := ActiveLineDecoration |} ].
Proof.
  unfold showThread. destruct (stacks session threadId) as [|sf rest]; simpl.
  - split; [by intros ?%elem_of_nil|]. by intros (? & ? & ? & _).
  - destruct (frame_source sf) as [source|] eqn:Hsrc.
    + destruct (getByUri editorManager (toUri source)) as [editor|] eqn:Hed.
      * rewrite list_elem_of_singleton. split.
        -- intros ->. by exists sf, source.
        -- intros (sf' & source' & [= <-] & Hs & Hg & Hd).
           assert (source' = source) as -> by congruence.
           destruct call as [e ds]. simpl in *.
           unfold ActiveLineDecorator.doShow. congruence.
      * split; [by intros ?%elem_of_nil|].
        intros (sf' & source' & [= <-] & Hs & Hg & _). congruence.
    + split; [by intros ?%elem_of_nil|].
      intros (sf' & source' & [= <-] & Hs & _). congruence.
Qed.

Lemma elem_of_concat {A} (x : A) (ls : list (list A)) :
  x ∈ concat ls <-> exists l, x ∈ l /\ l ∈ ls.
Proof.
  induction ls as [|l ls IH]; simpl.
  - split; [by intros ?%elem_of_nil|]. by intros (? & _ & ?%elem_of_nil).
  - rewrite elem_of_app, IH. split.
    + intros [Hx|(l' & Hx & Hl')]; [exists l; split; [done|by left]|].
      exists l'. split; [done|by right].
    + intros (l' & Hx & [->|Hl']%elem_of_cons); [by left|].
      right. by exists l'.
Qed.

(** X14.  One [applyDecorations()] of the active-line decorator first
    clears its decorations in every open editor, in the order of
    [editorManager.all], and only then highlights.  Without an active
    session it highlights nothing.  With one, it makes at most one
    highlighting call per stopped thread, each call sets exactly one
    whole-line decoration at the range of the thread's top frame, in the
    editor that is open for that frame's source; a thread without frames,
    whose top frame has no source, or whose source has no open editor
    gets no call. *)
Theorem activeLine_applyDecorations_calls
    (toUri : string -> string) (editorManager : EditorManager)
    (active : option DebugSession) :
  exists shows,
    applyDecorations toUri editorManager active =
      ((fun editor => (editor, [])) <$> all editorManager) ++ shows /\
    (active = None -> shows = []) /\
    (forall session, active = Some session ->
       length shows <= length (stoppedThreadIds session)) /\
    (forall call,
       call ∈ shows <->
       exists session threadId sf source,
         active = Some session /\
         threadId ∈ stoppedThreadIds session /\
         head (stacks session threadId) = Some sf /\
         frame_source sf = Some source /\
         getByUri editorManager (toUri source) = Some call.1 /\
         call.2 = [ {| range := ActiveLineDecorator.toRange (frame_of sf);
                       options := ActiveLineDecoration |} ]).
Proof.
  unfold applyDecorations. eexists. split; [reflexivity|].
  destruct active as [session|].
  - split_and!; [done| |].
    + intros ? [= <-]. induction (stoppedThreadIds session) as [|threadId ids IH];
        csimpl; [lia|].
      rewrite length_app.
      pose proof (showThread_length toUri editorManager session threadId). lia.
    + intros call. rewrite elem_of_concat. split.
      * intros (calls & Hcall & (threadId & -> & Hid)%list_elem_of_fmap).
        apply showThread_call in Hcall as (sf & source & ? & ? & ? & ?).
        by exists session, threadId, sf, source.
      * intros (session' & threadId & sf & source & [= <-] & Hid & ? & ? & ? & ?).
        exists (showThread toUri editorManager session threadId). split.
        -- apply showThread_call. by exists sf, source.
        -- apply list_elem_of_fmap. by exists threadId.
  - split_and!; [done|done|].
    intros call. split; [by intros ?%elem_of_nil|].
    by intros (? & ? & ? & ? & ? & _).
Qed.

End ActiveLineCalls.

(** ** More on the markers tree *)

Section MarkerChildren.
Import Markers MarkerTreeChildren.

Variable labelProvider : LabelProvider.
Variable uriParent : string -> string.

Implicit Types (t : MarkerTree) (r c e : ref).

Lemma createMarkerNode_reuse t (m : Marker) (i : nat) (parent : ref)
    (p : MarkerInfoNode) c (l : MarkerNode) :
  heap t !! parent = Some (InfoNode p) ->
  getNode t (markerNodeId (info_id p) i) = Some c ->
  heap t !! c = Some (LeafNode l) ->
  createMarkerNode t m i parent =
    (withHeap t (<[c := LeafNode (withMarker l m)]> (heap t)), c).
Proof.
  intros Hp Hget Hc. unfold createMarkerNode. rewrite Hp.
  unfold markerNodeId in Hget. by rewrite Hget, Hc.
Qed.

Lemma getMarkerNodesFrom_reuses (markers : list Marker) :
  forall t (i : nat) (parent : ref) (p : MarkerInfoNode) t' (cs : list ref),
  index_consistent (heap t) (nodes t) ->
  heap t !! parent = Some (InfoNode p) ->
  getMarkerNodesFrom t parent markers i = (t', cs) ->
  forall (j : nat) (m : Marker) c (l : MarkerNode),
    markers !! j = Some m ->
    getNode t (markerNodeId (info_id p) (i + j)) = Some c ->
    heap t !! c = Some (LeafNode l) ->
    cs !! j = Some c /\ heap t' !! c = Some (LeafNode (withMarker l m)).
Proof.
  induction markers as [|m0 rest IH]; intros t i parent p t' cs Hcons Hp Hrun j m c l Hm Hget Hc;
    [done|].
  destruct (createMarkerNode_spec t m0 i parent p Hcons Hp)
    as (t1 & c0 & l0 & Hcreate & Hnodes1 & _ & _ & Hkeep1 & Hrest1 & Hc0 & _ & Hid0).
  assert (index_consistent (heap t1) (nodes t1)) as Hcons1.
  { rewrite Hnodes1. by eapply keeps_index_consistent. }
  assert (heap t1 !! parent = Some (InfoNode p)) as Hp1 by (by eapply keeps_not_marker).
  destruct (getMarkerNodesFrom_spec rest t1 (S i) parent p Hcons1 Hp1)
    as (t2 & cs2 & Hrec & _ & _ & _ & Hkeep2 & Hrest2 & Hlen2 & Hres2).
  simpl in Hrun. rewrite Hcreate, Hrec in Hrun. injection Hrun as <- <-.
  destruct (Hcons _ _ Hget) as (n & Hn & Hnid).
  assert (n = LeafNode l) as -> by congruence. simpl in Hnid.
  destruct j as [|j]; simpl in Hm |- *.
  - injection Hm as <-. rewrite Nat.add_0_r in Hget, Hnid.
    rewrite (createMarkerNode_reuse t m0 i parent p c l Hp Hget Hc) in Hcreate.
    injection Hcreate as <- <-. split; [done|].
    rewrite Hrest2.
    + cbn [heap withHeap]. by rewrite list_lookup_insert_eq by (by eapply lookup_lt_Some).
    + intros (j' & Hj')%list_elem_of_lookup_1.
      destruct (lookup_lt_is_Some_2 rest j') as [m' Hm'].
      { rewrite <- Hlen2. by eapply lookup_lt_Some. }
      destruct (Hres2 j' m' Hm') as (c' & l' & Hc' & Hobj' & _ & Hid').
      assert (c' = c) as -> by congruence.
      destruct (Hkeep2 _ _ Hc0) as (n' & Hn' & Hnid' & _).
      assert (n' = LeafNode l') as -> by congruence. simpl in Hnid'.
      rewrite Hid0, Hid' in Hnid'. apply markerNodeId_inj in Hnid'. lia.
  - assert (c <> c0) as Hne.
    { intros ->. destruct (Hkeep1 _ _ Hc) as (n' & Hn' & Hnid' & _).
      assert (n' = LeafNode l0) as -> by congruence. simpl in Hnid'.
      rewrite Hid0, Hnid in Hnid'. apply markerNodeId_inj in Hnid'. lia. }
    eapply (IH t1 (S i) parent p t2 cs2 Hcons1 Hp1 Hrec j m c l Hm).
    + unfold getNode. rewrite Hnodes1.
      by replace (S i + j) with (i + S j) by lia.
    + by rewrite Hrest1.
Qed.

(** X15.  [getMarkerNodes] reuses the marker nodes the tree already
    holds: when the index has a marker node under the id of position [j]
    below the parent, the child at position [j] is that very node object,
    with the new marker stored in it and everything else about it (its
    id, name, parent, URI and whether it is selected) as it was. *)
Theorem getMarkerNodes_reuses t (parent : ref) (p : MarkerInfoNode)
    (markers : list Marker) t' (cs : list ref)
    (j : nat) (m : Marker) c (l : MarkerNode) :
  index_consistent (heap t) (nodes t) ->
  heap t !! parent = Some (InfoNode p) ->
  getMarkerNodes t parent markers = (t', cs) ->
  markers !! j = Some m ->
  getNode t (markerNodeId (info_id p) j) = Some c ->
  heap t !! c = Some (LeafNode l) ->
  cs !! j = Some c /\
  heap t' !! c = Some (LeafNode (withMarker l m)) /\
  node_selected (withMarker l m) = node_selected l /\
  marker (withMarker l m) = m.
Proof.
  intros Hcons Hp Hrun Hm Hget Hc.
  destruct (getMarkerNodesFrom_reuses markers t 0 parent p t' cs Hcons Hp Hrun j m c l)
    as [Hcs Hobj]; try done.
Qed.

Lemma resolvedOrKept_refl (markerManager : MarkerManager) (h : list TreeNode) :
  resolvedOrKept markerManager h h.
Proof.
  intros r [rn|i|l] Hr; [done| |].
  - exists i. split_and!; [done|done|by left].
  - by exists l.
Qed.

Lemma resolvedOrKept_trans (markerManager : MarkerManager) (h1 h2 h3 : list TreeNode) :
  resolvedOrKept markerManager h1 h2 -> resolvedOrKept markerManager h2 h3 ->
  resolvedOrKept markerManager h1 h3.
Proof.
  intros H12 H23 r [rn|i|l] Hr.
  - apply (H23 r (RootNode rn)). by apply (H12 r (RootNode rn)).
  - destruct (H12 r _ Hr) as (i2 & Hi2 & Hid2 & Hcount2).
    destruct (H23 r _ Hi2) as (i3 & Hi3 & Hid3 & Hcount3).
    exists i3. split_and!; [done|congruence|].
    rewrite Hid2 in Hcount3.
    destruct Hcount2 as [[? ?]|[? ?]], Hcount3 as [[? ?]|[? ?]];
      [left|right|right|right]; split; congruence.
  - destruct (H12 r _ Hr) as (l2 & Hl2 & Hid2).
    destruct (H23 r _ Hl2) as (l3 & Hl3 & Hid3).
    exists l3. split; [done|congruence].
Qed.

Lemma keeps_resolvedOrKept (markerManager : MarkerManager) (h h' : list TreeNode) :
  keeps h h' -> resolvedOrKept markerManager h h'.
Proof.
  intros Hk r n Hr. destruct (Hk r n Hr) as (n' & Hn' & Hid & Hsame).
  destruct n as [rn|i|l]; simpl in Hsame.
  - by subst n'.
  - subst n'. exists i. split_and!; [done|done|by left].
  - destruct Hsame as [l' ->]. by exists l'.
Qed.

(** One turn of the loop of [resolveChildren], from the per-file node on. *)
Lemma resolve_one (markerManager : MarkerManager) t e (n1 : MarkerInfoNode) :
  index_consistent (heap t) (nodes t) ->
  heap t !! e = Some (InfoNode n1) ->
  exists t2 cs (n4 : MarkerInfoNode),
    getMarkerNodes t e (findMarkers markerManager (info_id n1)) = (t2, cs) /\
    let t4 := setNumberOfMarkers (assignChildren t2 e cs) e (length cs) in
    nodes t4 = nodes t /\ root t4 = root t /\ changes t4 = changes t /\
    index_consistent (heap t4) (nodes t4) /\
    resolvedOrKept markerManager (heap t) (heap t4) /\
    heap t4 !! e = Some (InfoNode n4) /\
    info_id n4 = info_id n1 /\
    numberOfMarkers n4 = length (findMarkers markerManager (info_id n1)) /\
    length (info_children n4) = length (findMarkers markerManager (info_id n1)).
Proof.
  intros Hcons He.
  destruct (getMarkerNodesFrom_spec (findMarkers markerManager (info_id n1)) t 0 e n1 Hcons He)
    as (t2 & cs & Hget & Hnodes2 & Hroot2 & Hch2 & Hkeep2 & _ & Hlen & _).
  assert (heap t2 !! e = Some (InfoNode n1)) as He2 by (by eapply keeps_not_marker).
  assert (e < length (heap t2)) as Hlt by (by eapply lookup_lt_Some).
  set (n4 := withCount (withInfoChildren n1 cs) (length cs)).
  exists t2, cs, n4. split; [exact Hget|].
  assert (assignChildren t2 e cs =
          withHeap t2 (<[e := InfoNode (withInfoChildren n1 cs)]> (heap t2))) as ->.
  { unfold assignChildren. by rewrite He2. }
  rewrite (setNumberOfMarkers_info _ e (withInfoChildren n1 cs))
    by (cbn [heap withHeap]; by rewrite list_lookup_insert_eq).
  cbn [heap nodes root changes withHeap]. rewrite list_insert_insert_eq. fold n4.
  cbv zeta. cbn [heap nodes root changes withHeap].
  split_and!; [done|done|done| | | |done|by rewrite <- Hlen|by rewrite <- Hlen].
  - rewrite Hnodes2. eapply index_consistent_insert; [exact He2|done|].
    by eapply keeps_index_consistent.
  - intros r n Hr. destruct (Hkeep2 r n Hr) as (n' & Hn' & Hid & Hsame).
    destruct (decide (r = e)) as [->|Hne].
    + assert (n = InfoNode n1) as -> by congruence.
      exists n4. rewrite list_lookup_insert_eq by done.
      split_and!; [done|done|]. right. cbn. by rewrite Hlen.
    + rewrite list_lookup_insert_ne by done.
      destruct n as [rn|i|l]; simpl in Hsame.
      * by subst n'.
      * subst n'. exists i. split_and!; [done|done|by left].
      * destruct Hsame as [l' ->]. by exists l'.
  - by rewrite list_lookup_insert_eq.
Qed.

Lemma resolveRootChildren_spec (markerManager : MarkerManager) (ids : list string) :
  forall t,
  index_consistent (heap t) (nodes t) ->
  exists t' ns,
    resolveRootChildren labelProvider uriParent markerManager t ids = (t', ns) /\
    nodes t' = nodes t /\ root t' = root t /\ changes t' = changes t /\
    resolvedOrKept markerManager (heap t) (heap t') /\
    Forall2
      (fun uri e =>
         resolvedFor markerManager t' uri e /\
         forall e0 (n0 : MarkerInfoNode),
           getNode t uri = Some e0 -> heap t !! e0 = Some (InfoNode n0) -> e = e0)
      ids ns.
Proof.
  induction ids as [|id rest IH]; intros t Hcons.
  - exists t, []. split_and!; try done. apply resolvedOrKept_refl.
  - assert (exists t1 e (n1 : MarkerInfoNode),
              match asMarkerInfoNode t (getNode t id) with
              | Some (e, _) => (t, e)
              | None => createMarkerInfo labelProvider uriParent t id id
              end = (t1, e) /\
              nodes t1 = nodes t /\ root t1 = root t /\ changes t1 = changes t /\
              keeps (heap t) (heap t1) /\
              heap t1 !! e = Some (InfoNode n1) /\ info_id n1 = id /\
              forall e0 (n0 : MarkerInfoNode),
                getNode t id = Some e0 -> heap t !! e0 = Some (InfoNode n0) -> e = e0)
      as (t1 & e & n1 & Hnode & Hnodes1 & Hroot1 & Hch1 & Hkeep1 & He1 & Hid1 & Hreuse1).
    { destruct (asMarkerInfoNode t (getNode t id)) as [[e n0]|] eqn:Hex.
      - apply asMarkerInfoNode_Some in Hex as [Hget He].
        exists t, e, n0. split_and!; try done.
        + apply keeps_refl.
        + by eapply index_consistent_info.
        + intros e0 n0' Hget0 _. congruence.
      - eexists _, _, _. unfold createMarkerInfo. split; [reflexivity|].
        cbn [heap nodes root changes withHeap]. split_and!; try done.
        + apply keeps_app.
        + rewrite lookup_app_r by lia. by rewrite Nat.sub_diag.
        + done.
        + intros e0 n0 Hget0 He0.
          assert (asMarkerInfoNode t (getNode t id) = Some (e0, n0)) as Hsome
            by (by apply asMarkerInfoNode_Some).
          congruence. }
    assert (index_consistent (heap t1) (nodes t1)) as Hcons1.
    { rewrite Hnodes1. by eapply keeps_index_consistent. }
    destruct (resolve_one markerManager t1 e n1 Hcons1 He1)
      as (t2 & cs & n4 & Hget & Hpost).
    cbv zeta in Hpost. rewrite Hid1 in Hget, Hpost.
    set (t4 := setNumberOfMarkers (assignChildren t2 e cs) e (length cs)) in *.
    destruct Hpost as (Hnodes4 & Hroot4 & Hch4 & Hcons4 & Hkept4 & He4 & Hid4 & Hcount4 & Hlen4).
    destruct (IH t4 Hcons4) as (t5 & ns & Hrec & Hnodes5 & Hroot5 & Hch5 & Hkept5 & Hall).
    exists t5, (e :: ns). cbn [resolveRootChildren].
    rewrite Hnode, Hget. fold t4. rewrite Hrec.
    assert (resolvedOrKept markerManager (heap t) (heap t4)) as Hkept04.
    { eapply resolvedOrKept_trans; [|exact Hkept4]. by apply keeps_resolvedOrKept. }
    split_and!; [done|congruence|congruence|congruence| |].
    + by eapply resolvedOrKept_trans.
    + constructor.
      * split; [|exact Hreuse1].
        destruct (Hkept5 e _ He4) as (n5 & He5 & Hid5 & Hcount5).
        exists n5. rewrite Hid4 in Hcount5.
        split_and!; [done|congruence|..];
          destruct Hcount5 as [[? ?]|[? ?]]; congruence.
      * eapply Forall2_impl; [exact Hall|].
        intros uri e' [Hres Hreuse]. split; [done|].
        intros e0 n0 Hget0 He0.
        destruct (Hkept04 e0 _ He0) as (n0' & He0' & _).
        eapply Hreuse; [|exact He0'].
        unfold getNode in *. congruence.
Qed.

(** X16.  [resolveChildren] of the root answers with one per-file node
    per URI of the marker store, in the store's order.  Each answered
    node carries that URI as its id, and its [numberOfMarkers] and the
    number of its children are the number of markers the store has for
    the URI; a per-file node that the tree's lookup already finds for the
    URI is the one answered.  The call leaves the tree's index and the
    root node as they were: the answered nodes are neither indexed nor
    made children of the root by it. *)
Theorem resolveChildren_of_root (markerManager : MarkerManager) t
    (rn : MarkerRootNode) :
  index_consistent (heap t) (nodes t) ->
  heap t !! root t = Some (RootNode rn) ->
  exists t' ns,
    resolveChildren labelProvider uriParent markerManager t (root t) = (t', ns) /\
    nodes t' = nodes t /\
    heap t' !! root t = Some (RootNode rn) /\
    Forall2
      (fun uri e =>
         resolvedFor markerManager t' uri e /\
         forall e0 (n0 : MarkerInfoNode),
           getNode t uri = Some e0 -> heap t !! e0 = Some (InfoNode n0) -> e = e0)
      (getUris markerManager) ns.
Proof.
  intros Hcons Hroot.
  destruct (resolveRootChildren_spec markerManager (getUris markerManager) t Hcons)
    as (t' & ns & Hrun & Hnodes & _ & _ & Hkept & Hall).
  exists t', ns. unfold resolveChildren. rewrite Hroot.
  split_and!; [done|done| |done].
  apply (Hkept _ _ Hroot).
Qed.

End MarkerChildren.

Section ReachableTrees.
Import Markers.

Variable labelProvider : LabelProvider.
Variable uriParent : string -> string.
Variable markerOptions_kind : string.

(** X17.  Whatever sequence of refreshes a tree has gone through since
    its construction, and whatever the marker store held at each of them,
    the tree's index is consistent: the node it holds under an id has
    that id; a per-file node found under a URI has the root as its
    parent; and the root is a [MarkerRootNode]. *)
Theorem reachable_trees_consistent (t : MarkerTree) :
  reachable labelProvider uriParent markerOptions_kind t ->
  (forall id r, getNode t id = Some r ->
     exists n, heap t !! r = Some n /\ nodeId n = id) /\
  (forall uri e (n : MarkerInfoNode),
     getNode t uri = Some e -> heap t !! e = Some (InfoNode n) ->
     info_id n = uri /\ info_parent n = root t) /\
  (exists rn, heap t !! root t = Some (RootNode rn)).
Proof.
  intros Hreach.
  destruct (reachable_tree_ok labelProvider uriParent markerOptions_kind t Hreach)
    as (Hcons & Hunder & Hroot).
  split_and!; [exact Hcons| |exact Hroot].
  intros uri e n Hget He. split.
  - by eapply index_consistent_info.
  - by eapply Hunder.
Qed.

End ReachableTrees.

Section AtMoreSamples.
Import Samples MoreSamples.

Lemma tree1_consistent :
  Markers.index_consistent (Markers.heap tree1) (Markers.nodes tree1).
Proof.
  apply (reachable_tree_ok labels parentOf "problem").
  unfold tree1, tree0. apply Markers.reachable_refresh, Markers.reachable_construct.
Qed.

Lemma empty_prefix_handler_catches_all_witness :
  exists h',
    QuickOpen.getHandlerForText (QuickOpen.registry catchAllService) "readme" = Some h' /\
    h' ∈ QuickOpen.getHandlers (QuickOpen.registry catchAllService) /\
    (QuickOpen.onType catchAllService "readme").2 <> QuickOpen.TypeError /\
    forall d v,
      (QuickOpen.onType catchAllService "readme").2 = QuickOpen.ModelOnType d v ->
      d = h' /\ v = Js.substr "readme" (String.length (prefix h')).
Proof.
  apply (empty_prefix_handler_catches_all catchAllService fileHandler "readme").
  - vm_compute. right. right. left.
  - reflexivity.
Defined.

Lemma registerDefaultHandler_disposable_witness :
  let r1 := (QuickOpen.registerDefaultHandler registry commandHandler).1 in
  let after :=
    QuickOpen.runDisposable
      (QuickOpen.registerDefaultHandler registry commandHandler).2
      (QuickOpen.handlers r1) in
  QuickOpen.getDefaultHandler r1 = Some commandHandler /\
  QuickOpen.handlers r1 = QuickOpen.handlers registry /\
  Js.has after (prefix commandHandler) = false /\
  (forall h, h ∈ Js.values after ->
     h ∈ QuickOpen.getHandlers registry /\ prefix h <> prefix commandHandler) /\
  (forall h, h ∈ QuickOpen.getHandlers registry ->
     prefix h <> prefix commandHandler -> h ∈ Js.values after).
Proof.
  apply (registerDefaultHandler_disposable registry commandHandler).
  apply reachable_ok. unfold registry.
  repeat apply QuickOpen.reachable_step. apply QuickOpen.reachable_empty.
Defined.

Lemma help_lists_all_but_itself_witness :
  S (length (HelpQuickOpenHandler.onType registry "")) =
    length (QuickOpen.getHandlers registry) /\
  NoDup (QuickOpenModel.item_label <$> HelpQuickOpenHandler.onType registry "") /\
  forall p, p ∈ QuickOpenModel.item_label <$> HelpQuickOpenHandler.onType registry "" <->
            p ∈ prefix <$> QuickOpen.getHandlers registry /\ p <> "?".
Proof.
  apply (help_lists_all_but_itself registry 0 "").
  - apply reachable_ok. unfold registry.
    repeat apply QuickOpen.reachable_step. apply QuickOpen.reachable_empty.
  - vm_compute. left.
Defined.

Lemma legacy_onType_agrees_witness :
  (forall h,
     QuickOpen.getHandlerForText (QuickOpen.registry commandService) ">save" = Some h ->
     QuickOpenLegacyService.onType legacyRegistry ">save" =
       QuickOpenLegacyService.Forward
         (QuickOpenLegacyService.ModelOnType h
            (Js.substr ">save" (String.length (prefix h)))) /\
     (QuickOpen.currentPrefix commandService = Some (prefix h) ->
      QuickOpen.onType commandService ">save" =
        (commandService,
         QuickOpen.ModelOnType h (Js.substr ">save" (String.length (prefix h)))))) /\
  (QuickOpen.getHandlerForText (QuickOpen.registry commandService) ">save" = None ->
   exists items,
     QuickOpenLegacyService.onType legacyRegistry ">save"
       = QuickOpenLegacyService.Accept items /\
     Forall2
       (fun h item =>
          QuickOpenModel.item_label item = prefix h /\
          QuickOpenModel.item_description item = description h /\
          QuickOpenModel.run item QuickOpenModel.OPEN
            = (false, [QuickOpenLegacyService.ModelOnType h ""]) /\
          forall mode, mode <> QuickOpenModel.OPEN ->
            QuickOpenModel.run item mode = (false, []))
       (QuickOpen.getHandlers (QuickOpen.registry commandService)) items).
Proof. apply (legacy_onType_agrees legacyRegistry commandService ">save"). reflexivity. Defined.

Lemma createPreferenceContextMenu_one_check_witness :
  exists menu,
    PreferencesMenu.createPreferenceContextMenu "editor.autoSave" (Js.VStr "off")
      (Some autoSave) = Some menu /\
    length (PreferencesMenuMarks.checkedItems menu) <= 1.
Proof.
  eexists. split; [reflexivity|].
  apply (createPreferenceContextMenu_one_check "editor.autoSave" (Js.VStr "off") autoSave).
  - reflexivity.
  - right. discriminate.
Defined.

Lemma getMarkerNodes_reuses_witness :
  exists t' cs c l,
    Markers.getMarkerNodes tree1 1 [markerOf uriA] = (t', cs) /\
    Markers.getNode tree1 (Markers.markerNodeId uriA0 0) = Some c /\
    Markers.heap tree1 !! c = Some (Markers.LeafNode l) /\
    cs !! 0 = Some c /\
    Markers.heap t' !! c
      = Some (Markers.LeafNode (MarkerTreeChildren.withMarker l (markerOf uriA))) /\
    Markers.node_selected (MarkerTreeChildren.withMarker l (markerOf uriA))
      = Markers.node_selected l /\
    Markers.marker (MarkerTreeChildren.withMarker l (markerOf uriA)) = markerOf uriA.
Proof.
  eexists _, _, _, _. split; [reflexivity|]. split; [reflexivity|].
  split; [reflexivity|].
  eapply (getMarkerNodes_reuses tree1 1 _ [markerOf uriA] _ _ 0 (markerOf uriA)).
  - apply tree1_consistent.
  - reflexivity.
  - reflexivity.
  - reflexivity.
  - reflexivity.
  - reflexivity.
Defined.

Lemma resolveChildren_of_root_witness :
  exists rn,
    Markers.heap tree1 !! Markers.root tree1 = Some (Markers.RootNode rn) /\
    exists t' ns,
      MarkerTreeChildren.resolveChildren labels parentOf storeBoth tree1
        (Markers.root tree1) = (t', ns) /\
      Markers.nodes t' = Markers.nodes tree1 /\
      Markers.heap t' !! Markers.root tree1 = Some (Markers.RootNode rn) /\
      Forall2
        (fun uri e =>
           MarkerTreeChildren.resolvedFor storeBoth t' uri e /\
           forall e0 (n0 : Markers.MarkerInfoNode),
             Markers.getNode tree1 uri = Some e0 ->
             Markers.heap tree1 !! e0 = Some (Markers.InfoNode n0) -> e = e0)
        (Markers.getUris storeBoth) ns.
Proof.
  eexists. split; [reflexivity|].
  apply (resolveChildren_of_root labels parentOf storeBoth tree1).
  - apply tree1_consistent.
  - reflexivity.
Defined.

Lemma reachable_trees_consistent_witness :
  (forall id r, Markers.getNode tree2 id = Some r ->
     exists n, Markers.heap tree2 !! r = Some n /\ Markers.nodeId n = id) /\
  (forall uri e (n : Markers.MarkerInfoNode),
     Markers.getNode tree2 uri = Some e ->
     Markers.heap tree2 !! e = Some (Markers.InfoNode n) ->
     Markers.info_id n = uri /\ Markers.info_parent n = Markers.root tree2) /\
  (exists rn, Markers.heap tree2 !! Markers.root tree2 = Some (Markers.RootNode rn)).
Proof.
  apply (reachable_trees_consistent labels parentOf "problem" tree2).
  unfold tree2, tree1, tree0.
  apply Markers.reachable_refresh, Markers.reachable_refresh, Markers.reachable_construct.
Defined.

(** With the empty string saved, an [enum] menu can show two entries as
    chosen: the one for [''] and the default's. *)
Example two_checks_for_empty_saved :
  length
    <$> (PreferencesMenuMarks.checkedItems
           <$> PreferencesMenu.createPreferenceContextMenu "files.eol" (Js.VStr "")
                 (Some {| PreferencesMenu.type := Js.VStr "string";
                          PreferencesMenu.default_ := Js.VStr "auto";
                          PreferencesMenu.enum := Some [""; "auto"] |}))
  = Some 2.
Proof. reflexivity. Qed.

(** [show1] with options that hold [undefined] for [fuzzySort]: the
    property stays [undefined]; the caller's placeholder and [skipPrefix]
    are replaced. *)
Example show1_with_undefined :
  (QuickOpenOptions.res_prefix (QuickOpenOptions.show1 (Some undefinedFuzzySort)),
   QuickOpenOptions.res_placeholder (QuickOpenOptions.show1 (Some undefinedFuzzySort)),
   QuickOpenOptions.res_fuzzyMatchLabel (QuickOpenOptions.show1 (Some undefinedFuzzySort)),
   QuickOpenOptions.res_fuzzySort (QuickOpenOptions.show1 (Some undefinedFuzzySort)),
   QuickOpenOptions.res_fuzzyMatchDetail (QuickOpenOptions.show1 (Some undefinedFuzzySort)),
   QuickOpenOptions.res_skipPrefix (QuickOpenOptions.show1 (Some undefinedFuzzySort)))
  = (Some ">", Some "Type ? to get help on the actions you can take from here",
     Some true, None, Some false, Some true).
Proof. reflexivity. Qed.

(** The help list of the sample registry, and what its item does. *)
Example help_of_sample_registry :
  (fun item => (QuickOpenModel.item_label item,
                QuickOpenModel.run item QuickOpenModel.OPEN,
                QuickOpenModel.run item QuickOpenModel.PREVIEW))
    <$> HelpQuickOpenHandler.onType registry "anything"
  = [(">", (false, [QuickOpen.show (Some ">")]), (false, []))].
Proof. reflexivity. Qed.

End AtMoreSamples.

Section WidgetIds.

(** X19.  The widget's id tells the widgets apart: two breakpoints
    widgets have the same id only when both are without a session or
    both belong to sessions with the same session id; in particular a
    session's widget never has the id ['debug-breakpoints'] of the widget
    without a session. *)
Theorem construct_id_inj (a b : option BreakpointsWidget.DebugSession) :
  BreakpointsWidget.id (BreakpointsWidget.construct a)
    = BreakpointsWidget.id (BreakpointsWidget.construct b) ->
  BreakpointsWidget.session_sessionId <$> a = BreakpointsWidget.session_sessionId <$> b.
Proof.
  destruct a as [[s1]|], b as [[s2]|]; simpl; intros H; by simplify_eq.
Qed.

Lemma construct_id_inj_witness :
  BreakpointsWidget.session_sessionId
    <$> Some {| BreakpointsWidget.session_sessionId := "session-1" |}
  = BreakpointsWidget.session_sessionId
    <$> Some {| BreakpointsWidget.session_sessionId := "session-1" |}.
Proof.
  apply (construct_id_inj
           (Some {| BreakpointsWidget.session_sessionId := "session-1" |})
           (Some {| BreakpointsWidget.session_sessionId := "session-1" |})).
  reflexivity.
Defined.

End WidgetIds.
